(** * Host-resource provisioning layer of multipass: a shallow embedding

    Sources embedded here:
    - [src/utils/memory_size.cpp]                            (module [MemorySize])
    - [src/platform/backends/shared/linux/backend_utils.cpp] (modules [Subnet],
      [Bridge], [Image], [Kvm])

    Effects (sub-processes, the D-Bus system bus, files, system calls) are
    threaded through an explicit state made of an abstract outside world and
    the trace of the interactions performed so far; C++ exceptions are the
    [Throw] branch of [result]. *)

From Stdlib Require Import ZArith NArith List String Ascii Bool Lia.
From Stdlib Require Import Decimal DecimalString DecimalN.
Import ListNotations.

Local Open Scope string_scope.
Local Open Scope Z_scope.

(** ** Exceptions and results *)

Inductive exn : Type :=
| InvalidMemorySizeException (mem_value : string)
| runtime_error (what : string)
| CreateBridgeException (what : string).

Inductive result (A : Type) : Type :=
| Ok (a : A)
| Throw (e : exn).
Arguments Ok {A} a.
Arguments Throw {A} e.

(** ** Strings: the fragment of [QString] / [std::string] the code uses *)

Module Str.

Definition nl : string := String (ascii_of_nat 10) EmptyString.

Definition is_empty (s : string) : bool :=
  match s with EmptyString => true | String _ _ => false end.

(** [QChar::isDigit], on the ASCII range. *)
Definition isDigit (c : ascii) : bool :=
  let n := nat_of_ascii c in (48 <=? n)%nat && (n <=? 57)%nat.

(** [QChar::toLower], on the ASCII range. *)
Definition toLower (c : ascii) : ascii :=
  let n := nat_of_ascii c in
  if (65 <=? n)%nat && (n <=? 90)%nat then ascii_of_nat (n + 32) else c.

(** [isspace] as used by [QByteArray::trimmed]: tab, LF, VT, FF, CR, space. *)
Definition isSpace (c : ascii) : bool :=
  let n := nat_of_ascii c in
  ((9 <=? n)%nat && (n <=? 13)%nat) || (n =? 32)%nat.

Fixpoint all_digits (s : string) : bool :=
  match s with
  | EmptyString => true
  | String c r => isDigit c && all_digits r
  end.

(** [QString::startsWith]. *)
Fixpoint startsWith (s pre : string) : bool :=
  match pre, s with
  | EmptyString, _ => true
  | String _ _, EmptyString => false
  | String p pre', String c s' => Ascii.eqb c p && startsWith s' pre'
  end.

(** [QString::contains(const QString&)], case sensitive. *)
Fixpoint contains (s sub : string) : bool :=
  startsWith s sub ||
  match s with
  | EmptyString => false
  | String _ s' => contains s' sub
  end.

(** [QString::split(sep)], empty parts kept: the empty string splits into
    one empty field. *)
Fixpoint split (sep : ascii) (s : string) : list string :=
  match s with
  | EmptyString => [EmptyString]
  | String c r =>
      if Ascii.eqb c sep then EmptyString :: split sep r
      else
        match split sep r with
        | field :: fields => String c field :: fields
        | [] => [String c EmptyString]
        end
  end.

Fixpoint join (sep : ascii) (l : list string) : string :=
  match l with
  | [] => EmptyString
  | [x] => x
  | x :: r => x ++ String sep (join sep r)
  end.

(** [QString::section(sep, start, end)] with the default flags, for
    [0 <= start <= end]: the fields [start..end], joined by [sep]. *)
Definition section (sep : ascii) (start end_ : nat) (s : string) : string :=
  join sep (firstn (S end_ - start) (skipn start (split sep s))).

(** [QString::left(n)]. *)
Fixpoint left (n : nat) (s : string) : string :=
  match n, s with
  | O, _ => EmptyString
  | _, EmptyString => EmptyString
  | S k, String c r => String c (left k r)
  end.

Fixpoint trim_left (s : string) : string :=
  match s with
  | EmptyString => EmptyString
  | String c r => if isSpace c then trim_left r else s
  end.

Fixpoint trim_right (s : string) : string :=
  match s with
  | EmptyString => EmptyString
  | String c r =>
      match trim_right r with
      | EmptyString => if isSpace c then EmptyString else String c EmptyString
      | r' => String c r'
      end
  end.

(** [QByteArray::trimmed]. *)
Definition trimmed (s : string) : string := trim_right (trim_left s).

(** [QString::number(qlonglong)] and the [{}] of [fmt::format] at an
    integer: decimal, with a leading minus sign below zero. *)
Definition number (z : Z) : string := NilZero.string_of_int (Z.to_int z).

(** Strings without any white space, and strings of white space only. *)
Fixpoint no_space (s : string) : bool :=
  match s with
  | EmptyString => true
  | String c r => negb (isSpace c) && no_space r
  end.

Fixpoint all_space (s : string) : bool :=
  match s with
  | EmptyString => true
  | String c r => isSpace c && all_space r
  end.

(** A string is the bytes of a [std::string].  When every byte is below
    128, [QString::fromStdString] makes one [QChar] of each byte, with the
    same code, and [toStdString] gives the bytes back: lengths and
    positions count the same on both sides, and [QChar::isDigit] and
    [QChar::toLower] are as above.  Beyond that range a character takes
    several bytes and [\d] also accepts the other decimal digits of
    Unicode. *)
Fixpoint is_ascii (s : string) : bool :=
  match s with
  | EmptyString => true
  | String c r => (nat_of_ascii c <? 128)%nat && is_ascii r
  end.

(** No NUL byte: [c_str()] then stands for the whole string. *)
Fixpoint no_nul (s : string) : bool :=
  match s with
  | EmptyString => true
  | String c r => negb (nat_of_ascii c =? 0)%nat && no_nul r
  end.

(** The matcher of gmock's [HasSubstr], as a proposition. *)
Definition HasSubstr (sub s : string) : Prop :=
  exists pre post, s = pre ++ sub ++ post.

End Str.

(** ** [src/utils/memory_size.cpp] *)

Module MemorySize.

Definition kilo : Z := 1024.
Definition mega : Z := kilo * kilo.
Definition giga : Z := mega * kilo.

Definition LLONG_MAX : Z := 2 ^ 63 - 1.

(** Two's-complement wrap-around of a [long long], which is what the
    multiplication gives on the supported targets when it overflows. *)
Definition wrap64 (z : Z) : Z := (z + 2 ^ 63) mod 2 ^ 64 - 2 ^ 63.

(** Longest run of digits at the head of [s], and what follows it. *)
Fixpoint span_digits (s : string) : string * string :=
  match s with
  | EmptyString => (EmptyString, EmptyString)
  | String c r =>
      if Str.isDigit c then let (ds, rest) := span_digits r in (String c ds, rest)
      else (EmptyString, s)
  end.

(** [[KMG]] under [Qt::CaseInsensitive]. *)
Definition is_unit (c : ascii) : bool :=
  let l := Str.toLower c in
  Ascii.eqb l "k" || Ascii.eqb l "m" || Ascii.eqb l "g".

(** [B] under [Qt::CaseInsensitive]. *)
Definition is_b (c : ascii) : bool := Ascii.eqb (Str.toLower c) "b".

(** [QRegExp("(\\d+)([KMG])?B?", Qt::CaseInsensitive).exactMatch(s)],
    returning [cap(1)] and [cap(2)] when the whole of [s] matches.  The
    three character classes are pairwise disjoint, so the longest digit run
    followed by at most one unit letter and at most one [b] is the only way
    to match. *)
Definition exactMatch (s : string) : option (string * string) :=
  let (cap1, rest) := span_digits s in
  if Str.is_empty cap1 then None
  else
    let (cap2, rest1) :=
      match rest with
      | String c r => if is_unit c then (String c EmptyString, r) else (EmptyString, rest)
      | EmptyString => (EmptyString, EmptyString)
      end in
    let rest2 :=
      match rest1 with
      | String c r => if is_b c then r else rest1
      | EmptyString => EmptyString
      end in
    if Str.is_empty rest2 then Some (cap1, cap2) else None.

(** The language of the expression as it reads, to compare [exactMatch]
    with: one or more digits, then at most one unit letter, then at most
    one [b], both in either case; the captures are the digits and the
    unit. *)
Definition optional_char (class : ascii -> bool) (s : string) : Prop :=
  s = EmptyString \/ exists c, s = String c EmptyString /\ class c = true.

Inductive matches : string -> string -> string -> Prop :=
| matches_digits_unit_b (digits unit b : string) :
    digits <> EmptyString ->
    Str.all_digits digits = true ->
    optional_char is_unit unit ->
    optional_char is_b b ->
    matches (digits ++ unit ++ b) digits unit.

(** [QString::toLongLong()] at a run of digits (the only strings the code
    applies it to): the value, or 0 when the conversion fails, which
    for digits means a value beyond [LLONG_MAX].  The [ok] flag is not
    asked for by the caller. *)
Definition toLongLong (s : string) : Z :=
  match NilEmpty.uint_of_string s with
  | Some d =>
      let v := Z.of_N (N.of_uint d) in
      if Str.is_empty s then 0 else if v <=? LLONG_MAX then v else 0
  | None => 0
  end.

Definition in_bytes (mem_value : string) : result Z :=
  if Str.is_empty mem_value then Ok 0
  else
    match exactMatch mem_value with
    | Some (cap1, unit) =>
        let val := toLongLong cap1 in
        match unit with
        | String c _ =>
            let u := Str.toLower c in
            if Ascii.eqb u "g" then Ok (wrap64 (val * giga))
            else if Ascii.eqb u "m" then Ok (wrap64 (val * mega))
            else if Ascii.eqb u "k" then Ok (wrap64 (val * kilo))
            else Ok val (* [assert(false)]: no other letter is captured *)
        | EmptyString => Ok val
        end
    | None => Throw (InvalidMemorySizeException mem_value)
    end.

Record t : Type := mk { bytes : Z }.

(** [MemorySize::MemorySize()]. *)
Definition default : t := mk 0.

(** [MemorySize::MemorySize(const std::string&)]. *)
Definition of_string (val : string) : result t :=
  match in_bytes val with
  | Ok b => Ok (mk b)
  | Throw e => Throw e
  end.

Definition in_kilobytes (m : t) : Z := Z.quot (bytes m) kilo.
Definition in_megabytes (m : t) : Z := Z.quot (bytes m) mega.
Definition in_gigabytes (m : t) : Z := Z.quot (bytes m) giga.

(** [operator==]. *)
Definition eqb (a b : t) : bool := bytes a =? bytes b.

(** [operator!=], [operator<], [operator>], [operator<=], [operator>=]. *)
Definition neqb (a b : t) : bool := negb (bytes a =? bytes b).
Definition ltb (a b : t) : bool := bytes a <? bytes b.
Definition gtb (a b : t) : bool := bytes a >? bytes b.
Definition leb (a b : t) : bool := bytes a <=? bytes b.
Definition geb (a b : t) : bool := bytes a >=? bytes b.

(** The spellings of the optional unit letter and of the optional [B]. *)
Inductive unit_suffix : Type := NoUnit | UnitK (upper : bool) | UnitM (upper : bool) | UnitG (upper : bool).

Definition unit_text (u : unit_suffix) : string :=
  match u with
  | NoUnit => ""
  | UnitK true => "K" | UnitK false => "k"
  | UnitM true => "M" | UnitM false => "m"
  | UnitG true => "G" | UnitG false => "g"
  end.

Definition multiplier (u : unit_suffix) : Z :=
  match u with
  | NoUnit => 1
  | UnitK _ => 1024
  | UnitM _ => 1024 ^ 2
  | UnitG _ => 1024 ^ 3
  end.

Inductive b_suffix : Type := NoB | UpperB | LowerB.

Definition b_text (b : b_suffix) : string :=
  match b with NoB => "" | UpperB => "B" | LowerB => "b" end.

(** The decimal numeral of a natural number. *)
Definition numeral (n : N) : string := NilEmpty.string_of_uint (N.to_uint n).

End MemorySize.

(** ** Effects: state passing with exceptions *)

Section Monad.
Context {S : Type}.

Definition M (A : Type) : Type := S -> result A * S.

Definition ret {A} (a : A) : M A := fun s => (Ok a, s).

Definition throw {A} (e : exn) : M A := fun s => (Throw e, s).

Definition bind {A B} (c : M A) (k : A -> M B) : M B :=
  fun s =>
    match c s with
    | (Ok a, s') => k a s'
    | (Throw e, s') => (Throw e, s')
    end.
End Monad.
Arguments M S A : clear implicits.

Declare Scope monad_scope.
Delimit Scope monad_scope with monad.
Notation "x <- c ;; k" := (bind c (fun x => k))
  (at level 61, c at next level, right associativity) : monad_scope.
Notation "c ;; k" := (bind c (fun _ => k))
  (at level 61, right associativity) : monad_scope.
Local Open Scope monad_scope.

(** The state every operation threads: the outside world and the
    chronological trace of what was asked of it. *)
Record St (W E : Type) : Type := mkSt { world : W; trace : list E }.
Arguments mkSt {W E} world trace.
Arguments world {W E} s.
Arguments trace {W E} s.

(** Ask the world a question; the answer is recorded. *)
Definition ask {W E A} (f : W -> A * W) (ev : A -> E) : M (St W E) A :=
  fun s => let (a, w') := f (world s) in (Ok a, mkSt w' (trace s ++ [ev a])).

(** Tell the world something; nothing comes back. *)
Definition tell {W E} (f : W -> W) (ev : E) : M (St W E) unit :=
  fun s => (Ok tt, mkSt (f (world s)) (trace s ++ [ev])).

(** Logging levels of [multipass::logging]. *)
Inductive Level : Type := error | warning | info | debug.

(** ** Subnet allocation ([backend_utils.cpp], lines 76-110 and 187-222) *)

Module Subnet.

(** What the allocator needs from the host: [mp::utils::run_cmd_for_output]
    and [run_cmd_for_status], the clock-seeded random engine behind
    [dist(gen)], and the [QFile] holding the persisted subnet. *)
Class World (W : Type) : Type := {
  run_cmd_for_output : string -> list string -> W -> string * W;
  run_cmd_for_status : string -> list string -> W -> bool * W;
  gen_seed : W -> W;
  dist_gen : W -> Z * W;
  file_open : string -> W -> W;
  file_size : string -> W -> Z * W;
  file_readAll : string -> W -> string * W;
  file_write : string -> string -> W -> W
}.

Inductive Event : Type :=
| CmdOutput (cmd : string) (args : list string) (output : string)
| CmdStatus (cmd : string) (args : list string) (ok : bool)
| Seed
| Draw (v : Z)
| Log (level : Level) (category message : string)
| FileOpen (path : string)
| FileSize (path : string) (size : Z)
| FileReadAll (path : string) (data : string)
| FileWrite (path : string) (data : string).

Definition ip_route_show : list string := ["-4"; "route"; "show"].

Definition ping_args (ip : string) : list string :=
  ["-n"; "-q"; ip; "-c"; "-1"; "-W"; "1"].

(** [fmt::format("10.{}.{}", a, b)]. *)
Definition prefix_10 (a b : Z) : string :=
  "10." ++ Str.number a ++ "." ++ Str.number b.


(** The turn that accepts [subnet]: the routing table read for it does not
    contain it, and neither gateway answered. *)
Inductive accepted (subnet : string) : list Event -> Prop :=
| accepted_candidate (a b : Z) (routes : string) :
    0 <= a <= 255 -> 0 <= b <= 255 ->
    subnet = prefix_10 a b ->
    Str.contains routes subnet = false ->
    accepted subnet
      [Draw a; Draw b; CmdOutput "ip" ip_route_show routes;
       CmdStatus "ping" (ping_args (subnet ++ ".1")) false;
       CmdStatus "ping" (ping_args (subnet ++ ".254")) false].

(** What was written to files, how often the routing table was listed and
    which addresses were pinged, in order. *)
Fixpoint writes (t : list Event) : list (string * string) :=
  match t with
  | [] => []
  | FileWrite path data :: r => (path, data) :: writes r
  | _ :: r => writes r
  end.

(** The events of a candidate turn: a draw, a listing of the routes or a
    ping. *)
Definition is_probe (e : Event) : bool :=
  match e with
  | Draw _ | CmdOutput _ _ _ | CmdStatus _ _ _ => true
  | _ => false
  end.

Fixpoint route_listings (t : list Event) : nat :=
  match t with
  | [] => O
  | CmdOutput _ _ _ :: r => Datatypes.S (route_listings r)
  | _ :: r => route_listings r
  end.

Fixpoint pings (t : list Event) : nat :=
  match t with
  | [] => O
  | CmdStatus _ _ _ :: r => Datatypes.S (pings r)
  | _ :: r => pings r
  end.


Section Code.
Context {W : Type} `{World W}.

Definition log (l : Level) (category message : string) : M (St W Event) unit :=
  tell (fun w => w) (Log l category message).

Definition subnet_used_locally (subnet : string) : M (St W Event) bool :=
  output <- ask (run_cmd_for_output "ip" ip_route_show) (CmdOutput "ip" ip_route_show) ;;
  ret (Str.contains output subnet).

Definition can_reach_gateway (ip : string) : M (St W Event) bool :=
  ask (run_cmd_for_status "ping" (ping_args ip)) (CmdStatus "ping" (ping_args ip)).

(** The [for] loop of [virtual_switch_subnet]: the section of the first
    line that contains the bridge name; the empty string stands for the
    null [QString] the loop starts from. *)
Fixpoint first_route_naming (bridge_name : string) (lines : list string) : string :=
  match lines with
  | [] => EmptyString
  | line :: rest =>
      if Str.contains line bridge_name then Str.section "." 0 2 line
      else first_route_naming bridge_name rest
  end.

Definition virtual_switch_subnet (bridge_name : string) : M (St W Event) string :=
  output <- ask (run_cmd_for_output "ip" ip_route_show) (CmdOutput "ip" ip_route_show) ;;
  let subnet := first_route_naming bridge_name (Str.split (ascii_of_nat 10) output) in
  (if Str.is_empty subnet
   then log info "daemon" ("Unable to determine subnet for the " ++ bridge_name ++ " subnet")
   else ret tt) ;;
  ret subnet.

Definition subnet_exhausted : exn :=
  runtime_error "Could not determine a subnet for networking.".

(** The body of the [for (auto i = 0; i < 100; ++i)] loop, with [n]
    iterations left; [continue] is the recursive call.  The two draws are
    taken in the order they are written. *)
Fixpoint generate_loop (n : nat) : M (St W Event) string :=
  match n with
  | O => throw subnet_exhausted
  | Datatypes.S k =>
      a <- ask dist_gen Draw ;;
      b <- ask dist_gen Draw ;;
      let subnet := prefix_10 a b in
      used <- subnet_used_locally subnet ;;
      if used then generate_loop k
      else
        r1 <- can_reach_gateway (subnet ++ ".1") ;;
        if r1 then generate_loop k
        else
          r254 <- can_reach_gateway (subnet ++ ".254") ;;
          if r254 then generate_loop k
          else ret subnet
  end.

Definition generate_random_subnet : M (St W Event) string :=
  tell gen_seed Seed ;;
  generate_loop 100.

Definition subnet_file (network_dir : string) : string :=
  network_dir ++ "/multipass_subnet".

Definition get_subnet (network_dir bridge_name : string) : M (St W Event) string :=
  subnet <- virtual_switch_subnet bridge_name ;;
  if negb (Str.is_empty subnet) then ret subnet
  else
    tell (file_open (subnet_file network_dir)) (FileOpen (subnet_file network_dir)) ;;
    size <- ask (file_size (subnet_file network_dir)) (FileSize (subnet_file network_dir)) ;;
    if 0 <? size then
      data <- ask (file_readAll (subnet_file network_dir))
                  (FileReadAll (subnet_file network_dir)) ;;
      ret (Str.trimmed data)
    else
      new_subnet <- generate_random_subnet ;;
      tell (file_write (subnet_file network_dir) new_subnet)
           (FileWrite (subnet_file network_dir) new_subnet) ;;
      ret new_subnet.
End Code.

End Subnet.

(** ** Disk images ([backend_utils.cpp], lines 224-280) *)

Module Image.

(** [mp::ProcessState]: an exit code, or the error that ended the process. *)
Record ProcessState : Type := mkProcessState {
  exit_code : option Z;
  process_error : option string
}.

(** Modelled from the spec: [ProcessState::completed_successfully] is
    declared in [multipass/process/process.h], which is not among the
    sources; the spec calls everything but a zero exit "non-successful
    completion (non-zero exit or abnormal termination)". *)
Definition completed_successfully (p : ProcessState) : bool :=
  match process_error p, exit_code p with
  | None, Some 0 => true
  | _, _ => false
  end.

(** A process made from a [QemuImgProcessSpec]: the program is [qemu-img]
    and the arguments are the ones given, as the tests check. *)
Record Process : Type := mkProcess { program : string; arguments : list string }.

Definition qemuimg (args : list string) : Process := mkProcess "qemu-img" args.

(** The fragment of [QJsonValue] / [QJsonDocument] the probe inspects. *)
#[warnings="-register-all"]
Inductive QJsonValue : Type :=
| JUndefined
| JNull
| JBool (b : bool)
| JNumber (z : Z)
| JString (s : string)
| JArray (items : list QJsonValue)
| JObject (members : list (string * QJsonValue)).

Inductive QJsonDocument : Type :=
| DocNull                                             (* parsing failed *)
| DocArray (items : list QJsonValue)
| DocObject (members : list (string * QJsonValue)).

(** [QJsonDocument::object()]: empty unless the document holds an object. *)
Definition object (d : QJsonDocument) : list (string * QJsonValue) :=
  match d with DocObject m => m | _ => [] end.

(** [QJsonObject::operator[]]: the member, or an undefined value. *)
Fixpoint member (key : string) (o : list (string * QJsonValue)) : QJsonValue :=
  match o with
  | [] => JUndefined
  | (k, v) :: r => if String.eqb k key then v else member key r
  end.

(** [QJsonValue::toString()]: the string, or a null string for any other kind. *)
Definition toString (v : QJsonValue) : string :=
  match v with JString s => s | _ => EmptyString end.

(** What the image tool's collaborators provide: the process runner, Qt's
    JSON parser, [ProcessState::failure_message] and the constant
    [image_resize_timeout] of [shared_backend_utils.h]. *)
Class World (W : Type) : Type := {
  execute : Process -> option Z -> W -> ProcessState * W;
  read_all_standard_output : Process -> W -> string * W;
  read_all_standard_error : Process -> W -> string * W;
  fromJson : string -> QJsonDocument;
  failure_message : ProcessState -> string;
  image_resize_timeout : Z
}.

Inductive Event : Type :=
| Create (p : Process)
| Execute (p : Process) (timeout : option Z) (outcome : ProcessState)
| StandardOutput (p : Process) (data : string)
| StandardError (p : Process) (data : string).

(** The tool invocations of a trace, in order: what was run, and under
    which timeout. *)
Fixpoint invocations (t : list Event) : list (Process * option Z) :=
  match t with
  | [] => []
  | Execute p timeout _ :: r => (p, timeout) :: invocations r
  | _ :: r => invocations r
  end.

Section Code.
Context {W : Type} `{World W}.

(** [make_process] / [MP_PROCFACTORY.create_process]. *)
Definition create_process (p : Process) : M (St W Event) Process :=
  tell (fun w => w) (Create p) ;; ret p.

Definition qemuimg_failed (doing : string) (state : ProcessState) (err : string) : exn :=
  runtime_error (doing ++ ": qemu-img failed (" ++ failure_message state
                       ++ ") with output:" ++ Str.nl ++ err).

Definition resize_instance_image (disk_space : MemorySize.t) (image_path : string) : M (St W Event) unit :=
  let disk_size := Str.number (MemorySize.bytes disk_space) in
  let qemuimg_parameters := ["resize"; image_path; disk_size] in
  qemuimg_process <- create_process (qemuimg qemuimg_parameters) ;;
  process_state <- ask (execute qemuimg_process (Some image_resize_timeout))
                       (Execute qemuimg_process (Some image_resize_timeout)) ;;
  if negb (completed_successfully process_state) then
    err <- ask (read_all_standard_error qemuimg_process) (StandardError qemuimg_process) ;;
    throw (qemuimg_failed "Cannot resize instance image" process_state err)
  else ret tt.

Definition convert_to_qcow_if_necessary (image_path : string) : M (St W Event) string :=
  let qcow2_path := image_path ++ ".qcow2" in
  qemuimg_info_process <- create_process (qemuimg ["info"; "--output=json"; image_path]) ;;
  process_state <- ask (execute qemuimg_info_process None)
                       (Execute qemuimg_info_process None) ;;
  if negb (completed_successfully process_state) then
    err <- ask (read_all_standard_error qemuimg_info_process)
               (StandardError qemuimg_info_process) ;;
    throw (qemuimg_failed "Cannot read image format" process_state err)
  else
    image_info <- ask (read_all_standard_output qemuimg_info_process)
                      (StandardOutput qemuimg_info_process) ;;
    let image_record := object (fromJson image_info) in
    if String.eqb (toString (member "format" image_record)) "raw" then
      qemuimg_convert_process <-
        create_process (qemuimg ["convert"; "-p"; "-O"; "qcow2"; image_path; qcow2_path]) ;;
      process_state <- ask (execute qemuimg_convert_process (Some image_resize_timeout))
                           (Execute qemuimg_convert_process (Some image_resize_timeout)) ;;
      if negb (completed_successfully process_state) then
        err <- ask (read_all_standard_error qemuimg_convert_process)
                   (StandardError qemuimg_convert_process) ;;
        throw (qemuimg_failed "Failed to convert image format" process_state err)
      else ret qcow2_path
    else ret image_path.
End Code.

End Image.

(** ** Bridge creation over D-Bus ([backend_utils.cpp], lines 112-183 and 325-370) *)

Module Bridge.

(** [QDBusError]: valid unless its type is [NoError]. *)
Inductive ErrorType : Type :=
| NoError | Other | Failed | NoReply | BadAddress | InvalidInterface | InvalidSignature.

Record QDBusError : Type := mkError { error_type : ErrorType; message : string }.

Definition isValid (e : QDBusError) : bool :=
  match error_type e with NoError => false | _ => true end.

(** [QDBusObjectPath]: its [path()] is a [QString], [None] being the null one. *)
Record QDBusObjectPath : Type := mkPath { path : option string }.

Definition null_path : QDBusObjectPath := mkPath None.

Inductive QVariant : Type :=
| VString (s : string)
| VInt (z : Z).

Definition QVariantMap : Type := list (string * QVariant).
Definition VariantMapMap : Type := list (string * QVariantMap).

(** The argument kinds the code passes through [QVariant::fromValue]. *)
Inductive Arg : Type :=
| ArgSettings (m : VariantMapMap)
| ArgObjectPath (p : QDBusObjectPath).

Inductive QDBusMessage : Type :=
| ReplyMessage (arguments : list Arg)
| ErrorMessage (e : QDBusError).

(** A [DBusInterface] proxy, known by the names it was resolved with. *)
Record DBusInterface : Type := mkInterface {
  service : string;
  object : string;
  interface : string
}.

Class World (W : Type) : Type := {
  is_connected : W -> bool * W;
  last_error : W -> QDBusError * W;
  get_interface : DBusInterface -> W -> W;
  is_valid : DBusInterface -> W -> bool * W;
  interface_last_error : DBusInterface -> W -> QDBusError * W;
  call : DBusInterface -> string -> list Arg -> W -> QDBusMessage * W
}.

Inductive Event : Type :=
| IsConnected (connected : bool)
| LastError (e : QDBusError)
| GetInterface (i : DBusInterface)
| IsValid (i : DBusInterface) (valid : bool)
| InterfaceLastError (i : DBusInterface) (e : QDBusError)
| Call (i : DBusInterface) (method : string) (args : list Arg) (reply : QDBusMessage)
| Log (level : Level) (category message : string).

(** The connection objects that were sent [Delete], in order. *)
Fixpoint deleted (t : list Event) : list string :=
  match t with
  | [] => []
  | Call i method _ _ :: r =>
      if String.eqb method "Delete" then object i :: deleted r else deleted r
  | _ :: r => deleted r
  end.

(** The method calls of a trace, in order: the object and the method. *)
Fixpoint called (t : list Event) : list (string * string) :=
  match t with
  | [] => []
  | Call i method _ _ :: r => (object i, method) :: called r
  | _ :: r => called r
  end.

(** What was logged at [error] level, in order. *)
Fixpoint logged_errors (t : list Event) : list (string * string) :=
  match t with
  | [] => []
  | Log error category msg :: r => (category, msg) :: logged_errors r
  | _ :: r => logged_errors r
  end.

Definition nm_bus_name : string := "org.freedesktop.NetworkManager".
Definition nm_root_obj : string := "/org/freedesktop/NetworkManager".
Definition nm_root_ifc : string := "org.freedesktop.NetworkManager".
Definition nm_settings_obj : string := "/org/freedesktop/NetworkManager/Settings".
Definition nm_settings_ifc : string := "org.freedesktop.NetworkManager.Settings".
Definition nm_connection_ifc : string := "org.freedesktop.NetworkManager.Settings.Connection".
Definition max_bridge_name_len : nat := 15.

(** The error a [QDBusReply<T>] holds when the reply does not carry a [T]. *)
Definition unexpected_signature : QDBusError :=
  mkError InvalidSignature "Unexpected reply signature".

(** [QDBusReply<QDBusObjectPath>]: the error, or the value. *)
Definition reply_object_path (m : QDBusMessage) : QDBusError + QDBusObjectPath :=
  match m with
  | ErrorMessage e => inl e
  | ReplyMessage (ArgObjectPath p :: _) => inr p
  | ReplyMessage _ => inl unexpected_signature
  end.

(** [QDBusReply<void>]: the error, or nothing. *)
Definition reply_void (m : QDBusMessage) : QDBusError + unit :=
  match m with
  | ErrorMessage e => inl e
  | ReplyMessage _ => inr tt
  end.

(** The [what()] built by the constructor of [CreateBridgeException]:
    [fmt::format("{}. {}: {}", ...)]. *)
Definition create_bridge_what (detail : string) (dbus_error : QDBusError) (rollback : bool) : string :=
  (if rollback then "Could not rollback bridge" else "Could not create bridge")
  ++ ". " ++ detail ++ ": "
  ++ (if isValid dbus_error then message dbus_error else "unknown cause").

Definition mkCreateBridgeException (detail : string) (dbus_error : QDBusError) (rollback : bool) : exn :=
  CreateBridgeException (create_bridge_what detail dbus_error rollback).

(** [e.what()]. *)
Definition what (e : exn) : string :=
  match e with
  | InvalidMemorySizeException s => s
  | runtime_error s => s
  | CreateBridgeException s => s
  end.

(** [error_template] of [checked_dbus_call], filled in. *)
Definition failed_call_detail (i : DBusInterface) (method_name : string) : string :=
  "Failed DBus call. (Service: " ++ service i ++ "; Object: " ++ object i
  ++ "; Interface: " ++ interface i ++ "; Method: " ++ method_name ++ ")".

Definition make_connection_settings (parent_name child_name interface_name : string)
  : VariantMapMap * VariantMapMap :=
  let arg1 := [("connection", [("type", VString "bridge"); ("id", VString parent_name);
                               ("autoconnect-slaves", VInt 1)]);
               ("bridge", [("interface-name", VString parent_name)])] in
  let arg2 := [("connection", [("id", VString child_name);
                               ("type", VString "802-3-ethernet");
                               ("slave-type", VString "bridge");
                               ("master", VString parent_name);
                               ("interface-name", VString interface_name);
                               ("autoconnect-priority", VInt 10)])] in
  (arg1, arg2).

(** The locals of [create_bridge_with] that the rollback closure captures by
    reference, and whether the scope guard has been dismissed. *)
Record Frame : Type := mkFrame {
  parent_path : QDBusObjectPath;
  child_path : QDBusObjectPath;
  dismissed : bool
}.

Section Code.
Context {W : Type} `{World W}.

Definition log (l : Level) (category msg : string) : M (St W Event) unit :=
  tell (fun w => w) (Log l category msg).

Definition get_checked_system_bus : M (St W Event) unit :=
  connected <- ask is_connected IsConnected ;;
  if negb connected then
    e <- ask last_error LastError ;;
    throw (mkCreateBridgeException "Failed to connect to D-Bus system bus" e false)
  else ret tt.

Definition get_checked_interface (service path interface : string) : M (St W Event) DBusInterface :=
  let i := mkInterface service path interface in
  tell (get_interface i) (GetInterface i) ;;
  valid <- ask (is_valid i) (IsValid i) ;;
  if negb valid then
    e <- ask (interface_last_error i) (InterfaceLastError i) ;;
    throw (mkCreateBridgeException "Could not reach remote D-Bus object" e false)
  else ret i.

(** [checked_dbus_call<T, RollingBack>]; [as_T] is the conversion that
    [QDBusReply<T>] performs. *)
Definition checked_dbus_call {T} (as_T : QDBusMessage -> QDBusError + T) (RollingBack : bool)
           (i : DBusInterface) (method_name : string) (params : list Arg) : M (St W Event) T :=
  reply_msg <- ask (call i method_name params) (Call i method_name params) ;;
  match as_T reply_msg with
  | inl e => throw (mkCreateBridgeException (failed_call_detail i method_name) e RollingBack)
  | inr v => ret v
  end.

Fixpoint for_each {A} (l : list A) (body : A -> M (St W Event) unit) : M (St W Event) unit :=
  match l with
  | [] => ret tt
  | x :: r => body x ;; for_each r body
  end.

(** The [rollback] lambda of [make_bridge_rollback_guard], at the values
    the two captured paths have when it runs. *)
Definition rollback (parent child : QDBusObjectPath) : M (St W Event) unit :=
  for_each [child; parent] (fun obj_path =>
    match path obj_path with
    | Some p =>
        let connection := mkInterface nm_bus_name p nm_connection_ifc in
        tell (get_interface connection) (GetInterface connection) ;;
        checked_dbus_call reply_void true connection "Delete" []
    | None => ret tt
    end).

(** Modelled from the spec: [mp::top_catch_all] lives in
    [multipass/top_catch_all.h], which is not among the sources; the spec
    has the rollback "swallowing and only logging any failure". *)
Definition top_catch_all (log_category : string) (f : M (St W Event) unit) : M (St W Event) unit :=
  fun s =>
    match f s with
    | (Ok _, s') => (Ok tt, s')
    | (Throw e, s') => log error log_category (what e) s'
    end.

(** Run a computation of the outer function inside the frame. *)
Definition lift {A} (c : M (St W Event) A) : M (Frame * St W Event) A :=
  fun fs =>
    let (r, s') := c (snd fs) in (r, (fst fs, s')).

Definition get_frame : M (Frame * St W Event) Frame :=
  fun fs => (Ok (fst fs), fs).

Definition set_frame (f : Frame) : M (Frame * St W Event) unit :=
  fun fs => (Ok tt, (f, snd fs)).

(** The callback handed to [sg::make_scope_guard]. *)
Definition make_bridge_rollback_guard (log_category : string) : M (Frame * St W Event) unit :=
  f <- get_frame ;;
  lift (log info log_category "Rolling back bridge" ;;
        top_catch_all log_category (rollback (parent_path f) (child_path f))).

(** A scope guard around [body]: when the scope is left, by return or
    by exception, the callback runs unless the guard was dismissed; the
    callback is [noexcept] and whatever it yields is dropped. *)
Definition scope_guard {A} (callback : M (Frame * St W Event) unit)
           (body : M (Frame * St W Event) A) : M (Frame * St W Event) A :=
  fun fs =>
    let (r, fs1) := body fs in
    if dismissed (fst fs1) then (r, fs1)
    else let (_, fs2) := callback fs1 in (r, fs2).

Definition with_frame {A} (f0 : Frame) (c : M (Frame * St W Event) A) : M (St W Event) A :=
  fun s => let (r, fs) := c (f0, s) in (r, snd fs).

Definition log_category_create : string := "create bridge".
Definition log_category_rollback : string := "rollback bridge".
Definition root_path : QDBusObjectPath := mkPath (Some "/").
Definition base_name : string := "br-".

(** The one-time [qDBusRegisterMetaType] has no effect on the bus and is
    left out; the assignments to [parent_path] and [child_path] are the
    updates of the frame. *)
Definition create_bridge_with (interface : string) : M (St W Event) unit :=
  get_checked_system_bus ;;
  nm_root <- get_checked_interface nm_bus_name nm_root_obj nm_root_ifc ;;
  nm_settings <- get_checked_interface nm_bus_name nm_settings_obj nm_settings_ifc ;;
  let parent_name := Str.left max_bridge_name_len (base_name ++ interface) in
  let child_name := parent_name ++ "-child" in
  log debug log_category_create ("Creating bridge: " ++ parent_name) ;;
  let (arg1, arg2) := make_connection_settings parent_name child_name interface in
  with_frame (mkFrame null_path null_path false)
    (scope_guard (make_bridge_rollback_guard log_category_rollback)
       (p <- lift (checked_dbus_call reply_object_path false nm_settings
                     "AddConnection" [ArgSettings arg1]) ;;
        f <- get_frame ;;
        set_frame (mkFrame p (child_path f) (dismissed f)) ;;
        c <- lift (checked_dbus_call reply_object_path false nm_settings
                     "AddConnection" [ArgSettings arg2]) ;;
        f <- get_frame ;;
        set_frame (mkFrame (parent_path f) c (dismissed f)) ;;
        f <- get_frame ;;
        lift (checked_dbus_call reply_object_path false nm_root "ActivateConnection"
                [ArgObjectPath (child_path f); ArgObjectPath root_path;
                 ArgObjectPath root_path]) ;;
        f <- get_frame ;;
        set_frame (mkFrame (parent_path f) (child_path f) true) ;;
        lift (log info log_category_create ("Created bridge: " ++ parent_name)))).
End Code.

End Bridge.

(** ** The acceleration device ([backend_utils.cpp], lines 309-321) *)

Module Kvm.


(** What a system call comes back with: a non-negative value, or -1 with
    [errno] set. *)
Inductive outcome : Type :=
| Success (value : N)
| Failure (errno : Z).

(** The host decides whether the device node opens and what the
    [KVM_CREATE_VM] request on an open descriptor answers. *)
Class World (W : Type) : Type := {
  sys_open : string -> W -> outcome * W;
  sys_ioctl_create_vm : Z -> W -> outcome * W
}.

(** The part of the process the code observes: [errno] and the table of
    open descriptors. *)
Record Sys (W : Type) : Type := mkSys { host : W; errno : Z; fds : list N }.
Arguments mkSys {W} host errno fds.
Arguments host {W} s.
Arguments errno {W} s.
Arguments fds {W} s.

Inductive Event : Type :=
| Open (path : string) (ret : Z)
| Ioctl (fd : Z) (ret : Z) (errno_after : Z)
| Close (fd : Z) (ret : Z).


Section Code.
Context {W : Type} `{World W}.






End Code.

End Kvm.

(** ** The host's architecture and the KVM helper ([backend_utils.cpp], lines 282-307) *)

Module Host.

(** The table of [cpu_arch]. *)
Definition cpu_to_arch : list (string * string) :=
  [("x86_64", "x86_64"); ("arm", "arm"); ("arm64", "aarch64"); ("i386", "i386");
   ("power", "ppc"); ("power64", "ppc64le"); ("s390x", "s390x")].

(** [QHash::value(key)]: the value stored under the key, or a
    default-constructed (null) string. *)
Fixpoint value (key : string) (h : list (string * string)) : string :=
  match h with
  | [] => EmptyString
  | (k, v) :: r => if String.eqb k key then v else value key r
  end.

(** [cpu_arch], at what [QSysInfo::currentCpuArchitecture()] reports. *)
Definition cpu_arch (currentCpuArchitecture : string) : string :=
  value currentCpuArchitecture cpu_to_arch.

(** [QProcess::ProcessError]. *)
Inductive ProcessError : Type :=
| FailedToStart | Crashed | Timedout | ReadError | WriteError | UnknownError.

(** The [QProcess] running the helper, and the path Qt computes for it,
    [QDir(QCoreApplication::applicationDirPath()).filePath("check_kvm_support")]. *)
Class World (W : Type) : Type := {
  check_kvm_support_path : string;
  start_and_wait : string -> W -> W;
  process_error : W -> ProcessError * W;
  exitCode : W -> Z * W;
  readAll : W -> string * W
}.

Inductive Event : Type :=
| Start (program : string)
| Error (e : ProcessError)
| ExitCode (code : Z)
| ReadAll (data : string).

Definition failed_to_start (e : ProcessError) : bool :=
  match e with FailedToStart => true | _ => false end.

Definition helper_missing : exn :=
  runtime_error "The check_kvm_support script failed to start. Ensure it is in multipassd's PATH.".

Section Code.
Context {W : Type} `{World W}.

(** [start] and [waitForFinished] are one step; merging the channels only
    decides what [readAll] later holds. *)
Definition check_for_kvm_support : M (St W Event) unit :=
  tell (start_and_wait check_kvm_support_path) (Start check_kvm_support_path) ;;
  e <- ask process_error Error ;;
  if failed_to_start e then throw helper_missing
  else
    code <- ask exitCode ExitCode ;;
    if code =? 1 then
      output <- ask readAll ReadAll ;;
      throw (runtime_error (Str.trimmed output))
    else ret tt.
End Code.

End Host.

(** ** Test doubles

    Scripted collaborators in the manner of the mocks of
    [tests/linux/test_backend_utils.cpp]; the properties below are run
    against them on concrete inputs. *)

Module Doubles.

(** A bus that answers [call] from a script, one reply per call. *)
Record FakeBus : Type := mkFakeBus {
  bus_connected : bool;
  bus_error : Bridge.QDBusError;
  replies : list Bridge.QDBusMessage
}.

#[global] Instance fake_bus : Bridge.World FakeBus := {
  Bridge.is_connected w := (bus_connected w, w);
  Bridge.last_error w := (bus_error w, w);
  Bridge.get_interface _ w := w;
  Bridge.is_valid _ w := (true, w);
  Bridge.interface_last_error _ w := (bus_error w, w);
  Bridge.call _ _ _ w :=
    match replies w with
    | m :: r => (m, mkFakeBus (bus_connected w) (bus_error w) r)
    | [] => (Bridge.ErrorMessage (Bridge.mkError Bridge.NoReply "no reply"), w)
    end
}.

Definition object_path_reply (p : string) : Bridge.QDBusMessage :=
  Bridge.ReplyMessage [Bridge.ArgObjectPath (Bridge.mkPath (Some p))].

Definition activation_refused : Bridge.QDBusError :=
  Bridge.mkError Bridge.Failed "activation refused".

Definition delete_refused : Bridge.QDBusError :=
  Bridge.mkError Bridge.Failed "delete refused".

(** Both connections are added, activation fails, both deletions succeed. *)
Definition bus_activation_fails : St FakeBus Bridge.Event :=
  mkSt (mkFakeBus true (Bridge.mkError Bridge.NoError "")
          [object_path_reply "/parent"; object_path_reply "/child";
           Bridge.ErrorMessage activation_refused;
           Bridge.ReplyMessage []; Bridge.ReplyMessage []])
       [].

(** Both connections are added, activation fails, and so does the first
    deletion. *)
Definition bus_rollback_fails : St FakeBus Bridge.Event :=
  mkSt (mkFakeBus true (Bridge.mkError Bridge.NoError "")
          [object_path_reply "/parent"; object_path_reply "/child";
           Bridge.ErrorMessage activation_refused;
           Bridge.ErrorMessage delete_refused; Bridge.ReplyMessage []])
       [].

(** The bus of [bridge_creation_throws_if_bus_disconnected]. *)
Definition bus_disconnected : St FakeBus Bridge.Event :=
  mkSt (mkFakeBus false (Bridge.mkError Bridge.BadAddress "DBus error msg") []) [].

(** A bus that is down and whose last error has a type but no text, as
    [QDBusError{QDBusError::Failed, QString{}}] is. *)
Definition bus_disconnected_without_text : St FakeBus Bridge.Event :=
  mkSt (mkFakeBus false (Bridge.mkError Bridge.Failed EmptyString) []) [].

(** A process runner with fixed outcomes for the three kinds of run. *)
Record FakeTool : Type := mkFakeTool {
  info_outcome : Image.ProcessState;
  info_output : string;
  convert_outcome : Image.ProcessState;
  resize_outcome : Image.ProcessState;
  error_output : string
}.

Definition success : Image.ProcessState := Image.mkProcessState (Some 0) None.
Definition failure : Image.ProcessState := Image.mkProcessState (Some 1) None.
Definition crash : Image.ProcessState := Image.mkProcessState None (Some "core dumped").

Definition quoted (s : string) : string :=
  String (ascii_of_nat 34) (s ++ String (ascii_of_nat 34) EmptyString).

Definition json_format (format : string) : string :=
  "{" ++ quoted "format" ++ ": " ++ quoted format ++ "}".

#[global] Instance fake_tool : Image.World FakeTool := {
  Image.execute p _ w :=
    (match Image.arguments p with
     | "info" :: _ => info_outcome w
     | "convert" :: _ => convert_outcome w
     | _ => resize_outcome w
     end, w);
  Image.read_all_standard_output _ w := (info_output w, w);
  Image.read_all_standard_error _ w := (error_output w, w);
  Image.fromJson s :=
    if String.eqb s (json_format "raw") then Image.DocObject [("format", Image.JString "raw")]
    else if String.eqb s (json_format "qcow2")
         then Image.DocObject [("format", Image.JString "qcow2")]
         else Image.DocNull;
  Image.failure_message p :=
    match Image.process_error p, Image.exit_code p with
    | Some msg, _ => msg
    | None, Some 0 => ""
    | None, Some c => "Process returned exit code: " ++ Str.number c
    | None, None => ""
    end;
  Image.image_resize_timeout := 300000
}.

Definition tool (info : Image.ProcessState) (output : string)
           (convert resize : Image.ProcessState) : St FakeTool Image.Event :=
  mkSt (mkFakeTool info output convert resize "not found") [].

(** A host whose device node opens, or not, and whose [KVM_CREATE_VM]
    request has a fixed answer. *)
Record FakeHost : Type := mkFakeHost {
  open_answer : Kvm.outcome;
  create_vm_answer : Kvm.outcome
}.


(** A process with the three standard descriptors open. *)
Definition host (open_answer create_vm_answer : Kvm.outcome)
  : St (Kvm.Sys FakeHost) Kvm.Event :=
  mkSt (Kvm.mkSys (mkFakeHost open_answer create_vm_answer) 0 [0; 1; 2]%N) [].

(** A host with a fixed routing table, a set of addresses that answer a
    ping, a linear congruential engine and a flat file system. *)
Record FakeNet : Type := mkFakeNet {
  routes : string;
  answering : list string;
  clock : N;
  engine : N;
  files : list (string * string)
}.

Fixpoint lookup (path : string) (fs : list (string * string)) : option string :=
  match fs with
  | [] => None
  | (p, data) :: r => if String.eqb p path then Some data else lookup path r
  end.

Definition address_of (args : list string) : string := nth 2 args "".

#[global] Instance fake_net : Subnet.World FakeNet := {
  Subnet.run_cmd_for_output _ _ w := (routes w, w);
  Subnet.run_cmd_for_status _ args w :=
    (existsb (String.eqb (address_of args)) (answering w), w);
  Subnet.gen_seed w := mkFakeNet (routes w) (answering w) (clock w) (clock w) (files w);
  Subnet.dist_gen w :=
    (Z.of_N (engine w mod 256),
     mkFakeNet (routes w) (answering w) (clock w)
       ((engine w * 16807 + 7) mod 2147483647) (files w));
  Subnet.file_open path w :=
    match lookup path (files w) with
    | Some _ => w
    | None => mkFakeNet (routes w) (answering w) (clock w) (engine w) ((path, "") :: files w)
    end;
  Subnet.file_size path w :=
    (match lookup path (files w) with
     | Some data => Z.of_nat (String.length data)
     | None => 0
     end, w);
  Subnet.file_readAll path w :=
    (match lookup path (files w) with Some data => data | None => "" end, w);
  Subnet.file_write path data w :=
    mkFakeNet (routes w) (answering w) (clock w) (engine w) ((path, data) :: files w)
}.

Definition net (routes : string) (answering : list string) (clock : N)
           (files : list (string * string)) : St FakeNet Subnet.Event :=
  mkSt (mkFakeNet routes answering clock 0 files) [].

(** A connected bus whose interfaces answer [is_valid] from a script and
    on which every call fails. *)
Record PickyBus : Type := mkPickyBus {
  validity : list bool;
  interface_error : Bridge.QDBusError
}.

#[global] Instance picky_bus : Bridge.World PickyBus := {
  Bridge.is_connected w := (true, w);
  Bridge.last_error w := (Bridge.mkError Bridge.NoError "", w);
  Bridge.get_interface _ w := w;
  Bridge.is_valid _ w :=
    match validity w with
    | v :: r => (v, mkPickyBus r (interface_error w))
    | [] => (true, w)
    end;
  Bridge.interface_last_error _ w := (interface_error w, w);
  Bridge.call _ _ _ w := (Bridge.ErrorMessage (Bridge.mkError Bridge.NoReply "no reply"), w)
}.

(** The helper, as one finished run: how it ended and what it printed. *)
Record FakeHelper : Type := mkFakeHelper {
  helper_error : Host.ProcessError;
  helper_exit : Z;
  helper_output : string
}.

#[global] Instance fake_helper : Host.World FakeHelper := {
  Host.check_kvm_support_path := "/usr/bin/check_kvm_support";
  Host.start_and_wait _ w := w;
  Host.process_error w := (helper_error w, w);
  Host.exitCode w := (helper_exit w, w);
  Host.readAll w := (helper_output w, w)
}.

End Doubles.

(** * Properties *)

(** ** Memory sizes *)

Section MemorySizeFacts.
Import MemorySize.

Lemma string_of_uint_all_digits (d : uint) :
  Str.all_digits (NilEmpty.string_of_uint d) = true.
Proof. induction d; simpl; auto. Qed.

Lemma numeral_all_digits (n : N) : Str.all_digits (numeral n) = true.
Proof. apply string_of_uint_all_digits. Qed.

Lemma string_of_uint_empty (d : uint) :
  NilEmpty.string_of_uint d = EmptyString -> d = Nil.
Proof. destruct d; simpl; intros E; try discriminate; reflexivity. Qed.

Lemma numeral_not_empty (n : N) : Str.is_empty (numeral n) = false.
Proof.
  unfold numeral.
  destruct (NilEmpty.string_of_uint (N.to_uint n)) eqn:E; [|reflexivity].
  apply string_of_uint_empty in E.
  destruct n as [|p]; simpl in E; [discriminate|].
  exfalso. exact (DecimalPos.Unsigned.to_uint_nonnil p E).
Qed.

(** The digit run of a string that starts with digits and goes on with
    something else is found whole. *)
Lemma span_digits_app (ds rest : string) :
  Str.all_digits ds = true ->
  match rest with String c _ => Str.isDigit c = false | EmptyString => True end ->
  span_digits (ds ++ rest) = (ds, rest).
Proof.
  intros Hds Hrest. induction ds as [|c ds IH]; simpl in *.
  - destruct rest as [|c r]; simpl; [reflexivity|]. now rewrite Hrest.
  - apply andb_true_iff in Hds as [Hc Hds]. rewrite Hc, (IH Hds). reflexivity.
Qed.

Lemma suffix_not_digit (u : unit_suffix) (b : b_suffix) :
  match unit_text u ++ b_text b with
  | String c _ => Str.isDigit c = false
  | EmptyString => True
  end.
Proof. destruct u as [|[]|[]|[]], b; simpl; auto. Qed.

(** The matcher on the shapes the grammar describes: digits, then the
    optional unit letter, then the optional [b]. *)
Lemma exactMatch_shape (ds : string) (u : unit_suffix) (b : b_suffix) :
  Str.all_digits ds = true -> Str.is_empty ds = false ->
  exactMatch (ds ++ unit_text u ++ b_text b) = Some (ds, unit_text u).
Proof.
  intros Hds Hne. unfold exactMatch.
  rewrite (span_digits_app ds _ Hds (suffix_not_digit u b)), Hne.
  destruct u as [|[]|[]|[]], b; reflexivity.
Qed.

Lemma toLongLong_numeral (n : N) :
  toLongLong (numeral n) = if Z.of_N n <=? LLONG_MAX then Z.of_N n else 0.
Proof.
  unfold toLongLong. rewrite numeral_not_empty. unfold numeral.
  rewrite NilEmpty.usu, DecimalN.Unsigned.of_to. reflexivity.
Qed.

Lemma wrap64_small (z : Z) : - 2 ^ 63 <= z <= LLONG_MAX -> wrap64 z = z.
Proof.
  unfold wrap64, LLONG_MAX. intros Hz.
  rewrite Z.mod_small by lia. lia.
Qed.

Lemma append_nil_r (s : string) : s ++ "" = s.
Proof. induction s as [|c s IH]; simpl; [reflexivity|now rewrite IH]. Qed.

Lemma app_not_empty (s t : string) : Str.is_empty s = false -> Str.is_empty (s ++ t) = false.
Proof. destruct s; simpl; intros E; [discriminate E|reflexivity]. Qed.

(** [in_bytes] on a numeral with its suffix, whatever the size of the
    number: the digits go through [toLongLong], the unit scales. *)
Lemma in_bytes_numeral (n : N) (u : unit_suffix) (b : b_suffix) :
  in_bytes (numeral n ++ unit_text u ++ b_text b)
  = Ok (let val := if Z.of_N n <=? LLONG_MAX then Z.of_N n else 0 in
        match u with NoUnit => val | _ => wrap64 (val * multiplier u) end).
Proof.
  unfold in_bytes.
  rewrite (app_not_empty _ _ (numeral_not_empty n)).
  rewrite (exactMatch_shape _ u b (numeral_all_digits n) (numeral_not_empty n)).
  rewrite toLongLong_numeral.
  destruct u as [|[]|[]|[]]; reflexivity.
Qed.

Lemma unit_not_digit (c : ascii) : is_unit c = true -> Str.isDigit c = false.
Proof. destruct c as [[] [] [] [] [] [] [] []]; vm_compute; congruence. Qed.

Lemma b_not_digit (c : ascii) : is_b c = true -> Str.isDigit c = false.
Proof. destruct c as [[] [] [] [] [] [] [] []]; vm_compute; congruence. Qed.

Lemma b_not_unit (c : ascii) : is_b c = true -> is_unit c = false.
Proof. destruct c as [[] [] [] [] [] [] [] []]; vm_compute; congruence. Qed.

Lemma span_digits_split (s ds rest : string) :
  span_digits s = (ds, rest) ->
  s = ds ++ rest /\ Str.all_digits ds = true.
Proof.
  revert ds rest. induction s as [|c s IH]; intros ds rest; simpl.
  - intros [= <- <-]. auto.
  - destruct (Str.isDigit c) eqn:Ec.
    + destruct (span_digits s) as [ds' rest'].
      intros [= <- <-]. destruct (IH _ _ eq_refl) as [-> Hds].
      simpl. rewrite Ec, Hds. auto.
    + intros [= <- <-]. auto.
Qed.

(** The hand-compiled matcher accepts exactly the language of the
    expression, with the same captures. *)
Lemma exactMatch_matches (s cap1 cap2 : string) :
  exactMatch s = Some (cap1, cap2) <-> matches s cap1 cap2.
Proof.
  split.
  - unfold exactMatch. destruct (span_digits s) as [ds rest] eqn:Espan.
    apply span_digits_split in Espan as [-> Hds].
    destruct ds as [|d ds]; [discriminate|]. cbn [Str.is_empty].
    assert (Hne : String d ds <> "") by discriminate.
    destruct rest as [|c rest].
    + intros [= <- <-].
      apply (matches_digits_unit_b (String d ds) "" ""); auto; now left.
    + destruct (is_unit c) eqn:Eunit.
      * destruct rest as [|c' rest].
        -- intros [= <- <-].
           apply (matches_digits_unit_b (String d ds) (String c "") ""); auto;
             [right; eauto|now left].
        -- destruct (is_b c') eqn:Eb; [|discriminate].
           destruct rest; [|discriminate]. intros [= <- <-].
           apply (matches_digits_unit_b (String d ds) (String c "") (String c' "")); auto;
             right; eauto.
      * destruct (is_b c) eqn:Eb; [|discriminate].
        destruct rest; [|discriminate]. intros [= <- <-].
        apply (matches_digits_unit_b (String d ds) "" (String c "")); auto;
          [now left|right; eauto].
  - intros Hm. destruct Hm as [ds unit b Hne Hds Hunit Hb].
    unfold exactMatch.
    assert (Hrest : match unit ++ b with
                    | String c _ => Str.isDigit c = false
                    | EmptyString => True
                    end).
    { destruct Hunit as [->|(c & -> & Hc)]; [|exact (unit_not_digit c Hc)].
      destruct Hb as [->|(c & -> & Hc)]; [exact I|exact (b_not_digit c Hc)]. }
    rewrite (span_digits_app ds _ Hds Hrest).
    destruct ds as [|d ds]; [contradiction|]. cbn [Str.is_empty].
    destruct Hunit as [->|(c & -> & Hc)]; destruct Hb as [->|(c' & -> & Hc')];
      cbn [append].
    + reflexivity.
    + rewrite (b_not_unit _ Hc'), Hc'. reflexivity.
    + rewrite Hc. reflexivity.
    + rewrite Hc, Hc'. reflexivity.
Qed.

(** [QString::number] of a non-negative value is its numeral. *)
Lemma number_numeral (z : Z) : 0 <= z -> Str.number z = numeral (Z.to_N z).
Proof.
  intros Hz. destruct z as [|p|p]; [reflexivity| |lia].
  unfold Str.number, numeral. cbn [Z.to_int Z.to_N N.to_uint NilZero.string_of_int].
  unfold NilZero.string_of_uint.
  destruct (Pos.to_uint p) eqn:Ep; try reflexivity.
  exfalso. exact (DecimalPos.Unsigned.to_uint_nonnil p Ep).
Qed.

Lemma multiplier_pos (u : unit_suffix) : 1 <= multiplier u.
Proof. destruct u; simpl; lia. Qed.
(** The decimal byte count that [resize_instance_image] hands to the tool
    parses back to the size it came from. *)
Lemma number_parses_back (m : MemorySize.t) :
  0 <= bytes m <= LLONG_MAX -> of_string (Str.number (bytes m)) = Ok m.
Proof.
  intros [Hlo Hhi]. unfold of_string.
  rewrite (number_numeral _ Hlo), <- (append_nil_r (numeral _)).
  change (numeral (Z.to_N (bytes m)) ++ "")
    with (numeral (Z.to_N (bytes m)) ++ unit_text NoUnit ++ b_text NoB).
  rewrite in_bytes_numeral, Z2N.id by exact Hlo.
  apply Z.leb_le in Hhi. rewrite Hhi. destruct m; reflexivity.
Qed.
(** The unit conversions truncate. *)
Example in_kilobytes_floor :
  in_kilobytes (mk 1023) = 0 /\ in_kilobytes (mk 1024) = 1 /\ in_megabytes (mk 3221225472) = 3072.
Proof. repeat split; reflexivity. Qed.
End MemorySizeFacts.

(** C7 (as amended).  For every natural number [n] whose scaled value fits a
    signed 64-bit integer, parsing ["<n>"], ["<n>K"], ["<n>M"], ["<n>G"]
    (unit letter in either case, with or without a trailing [B]/[b]) yields
    [n] times 1, 1024, 1024^2, 1024^3 bytes; the empty string yields
    0 bytes; ["abc"] fails with the invalid-memory-size error. *)
Theorem memory_size_parse_scaled :
  (forall (n : N) (u : MemorySize.unit_suffix) (b : MemorySize.b_suffix),
      Z.of_N n * MemorySize.multiplier u <= MemorySize.LLONG_MAX ->
      MemorySize.of_string (MemorySize.numeral n ++ MemorySize.unit_text u ++ MemorySize.b_text b)
      = Ok (MemorySize.mk (Z.of_N n * MemorySize.multiplier u)))
  /\ MemorySize.of_string "" = Ok (MemorySize.mk 0)
  /\ MemorySize.of_string "abc" = Throw (InvalidMemorySizeException "abc").
Proof.
  split; [|split; reflexivity].
  intros n u b Hfit. unfold MemorySize.of_string.
  rewrite in_bytes_numeral.
  pose proof (multiplier_pos u) as Hm.
  assert (Hn : Z.of_N n <= MemorySize.LLONG_MAX) by nia.
  apply Z.leb_le in Hn. rewrite Hn. cbv zeta.
  destruct u; try (rewrite wrap64_small by lia); try reflexivity.
  f_equal. f_equal. simpl MemorySize.multiplier. lia.
Qed.

Lemma memory_size_parse_scaled_witness :
  Z.of_N 3 * MemorySize.multiplier (MemorySize.UnitG true) <= MemorySize.LLONG_MAX
  /\ MemorySize.numeral 3 ++ MemorySize.unit_text (MemorySize.UnitG true)
       ++ MemorySize.b_text MemorySize.NoB = "3G"
  /\ MemorySize.of_string "3G" = Ok (MemorySize.mk 3221225472).
Proof.
  split; [vm_compute; discriminate|].
  split; [reflexivity|].
  apply (proj1 memory_size_parse_scaled 3%N (MemorySize.UnitG true) MemorySize.NoB).
  vm_compute; discriminate.
Defined.

(** C7 as stated fails beyond the range of [long long]: the twenty nines
    followed by [G] parse to 0 bytes, not to their value times 1024^3. *)
Lemma memory_size_parse_scaled_counterexample :
  let n := 99999999999999999999%N in
  MemorySize.numeral n ++ MemorySize.unit_text (MemorySize.UnitG true)
    ++ MemorySize.b_text MemorySize.NoB = "99999999999999999999G"
  /\ MemorySize.of_string "99999999999999999999G" = Ok (MemorySize.mk 0)
  /\ MemorySize.of_string "99999999999999999999G"
     <> Ok (MemorySize.mk (Z.of_N n * MemorySize.multiplier (MemorySize.UnitG true))).
Proof.
  cbv zeta. split; [reflexivity|]. split; [vm_compute; reflexivity|].
  vm_compute. discriminate.
Qed.

(** C8 (as amended).  The leading digits are mandatory: every non-empty
    input made only of a unit letter and/or a trailing [b]/[B], with no
    digit, is rejected with the invalid-memory-size error. *)
Theorem memory_size_digits_mandatory :
  forall (u : MemorySize.unit_suffix) (b : MemorySize.b_suffix),
    MemorySize.unit_text u ++ MemorySize.b_text b <> "" ->
    MemorySize.of_string (MemorySize.unit_text u ++ MemorySize.b_text b)
    = Throw (InvalidMemorySizeException (MemorySize.unit_text u ++ MemorySize.b_text b)).
Proof.
  intros u b Hne.
  destruct u as [|[]|[]|[]], b; try reflexivity; exfalso; apply Hne; reflexivity.
Qed.

Lemma memory_size_digits_mandatory_witness :
  MemorySize.unit_text (MemorySize.UnitM true) ++ MemorySize.b_text MemorySize.UpperB = "MB"
  /\ MemorySize.of_string "MB" = Throw (InvalidMemorySizeException "MB").
Proof.
  split; [reflexivity|].
  apply (memory_size_digits_mandatory (MemorySize.UnitM true) MemorySize.UpperB).
  simpl; discriminate.
Defined.

(** C8 as stated fails: ["K"] and ["MB"] do not match the expression, which
    asks for at least one digit, and are rejected. *)
Lemma memory_size_digits_optional_counterexample :
  MemorySize.exactMatch "K" = None
  /\ MemorySize.of_string "K" = Throw (InvalidMemorySizeException "K")
  /\ MemorySize.of_string "MB" = Throw (InvalidMemorySizeException "MB").
Proof. repeat split; reflexivity. Qed.

(** C10.  A digit sequence beyond the signed 64-bit range, with any unit and
    with or without the trailing [b], matches the grammar and parses without
    error to a size equal to 0 bytes. *)
Theorem memory_size_overflow_is_zero :
  forall (n : N) (u : MemorySize.unit_suffix) (b : MemorySize.b_suffix),
    MemorySize.LLONG_MAX < Z.of_N n ->
    let s := MemorySize.numeral n ++ MemorySize.unit_text u ++ MemorySize.b_text b in
    MemorySize.exactMatch s = Some (MemorySize.numeral n, MemorySize.unit_text u)
    /\ MemorySize.toLongLong (MemorySize.numeral n) = 0
    /\ MemorySize.of_string s = Ok MemorySize.default
    /\ (forall m, MemorySize.of_string s = Ok m -> MemorySize.eqb m MemorySize.default = true).
Proof.
  intros n u b Hbig s.
  assert (Hz : MemorySize.toLongLong (MemorySize.numeral n) = 0).
  { rewrite toLongLong_numeral.
    destruct (Z.leb_spec (Z.of_N n) MemorySize.LLONG_MAX); [lia|reflexivity]. }
  assert (Hs : MemorySize.of_string s = Ok MemorySize.default).
  { unfold s, MemorySize.of_string. rewrite in_bytes_numeral.
    destruct (Z.leb_spec (Z.of_N n) MemorySize.LLONG_MAX); [lia|].
    destruct u; reflexivity. }
  split; [|split; [exact Hz|split; [exact Hs|]]].
  - apply exactMatch_shape; [apply numeral_all_digits|apply numeral_not_empty].
  - intros m Hm. rewrite Hs in Hm. injection Hm as <-. reflexivity.
Qed.

Lemma memory_size_overflow_is_zero_witness :
  MemorySize.LLONG_MAX < Z.of_N 99999999999999999999
  /\ MemorySize.numeral 99999999999999999999 ++ MemorySize.unit_text (MemorySize.UnitG true)
       ++ MemorySize.b_text MemorySize.NoB = "99999999999999999999G"
  /\ MemorySize.of_string "99999999999999999999G" = Ok MemorySize.default.
Proof.
  split; [vm_compute; reflexivity|].
  split; [reflexivity|].
  apply (memory_size_overflow_is_zero 99999999999999999999%N (MemorySize.UnitG true)
           MemorySize.NoB).
  vm_compute; reflexivity.
Defined.

(** ** Substrings *)

Section SubstringFacts.
Lemma append_assoc (a b c : string) : (a ++ b) ++ c = a ++ b ++ c.
Proof. induction a as [|x a IH]; simpl; [reflexivity|now rewrite IH]. Qed.

Lemma HasSubstr_head (sub post : string) : Str.HasSubstr sub (sub ++ post).
Proof. exists "", post. reflexivity. Qed.

Lemma HasSubstr_whole (sub : string) : Str.HasSubstr sub sub.
Proof. exists "", "". simpl. now rewrite append_nil_r. Qed.

Lemma HasSubstr_skip (pre sub s : string) :
  Str.HasSubstr sub s -> Str.HasSubstr sub (pre ++ s).
Proof.
  intros (a & b & ->). exists (pre ++ a), b. now rewrite append_assoc.
Qed.
Lemma startsWith_prefix (s pre : string) :
  Str.startsWith s pre = true <-> exists post, s = pre ++ post.
Proof.
  revert s. induction pre as [|p pre IH]; intros s; simpl.
  - split; [intros _; now exists s|intros _; destruct s; reflexivity].
  - destruct s as [|c s]; simpl.
    + split; [discriminate|intros [post E]; discriminate E].
    + rewrite andb_true_iff, IH. split.
      * intros [Hc [post ->]]. apply Ascii.eqb_eq in Hc. subst c. now exists post.
      * intros [post [= -> ->]]. split; [apply Ascii.eqb_refl|now exists post].
Qed.

(** [contains] decides the substring relation. *)
Lemma contains_HasSubstr (s sub : string) :
  Str.contains s sub = true <-> Str.HasSubstr sub s.
Proof.
  induction s as [|c s IH].
  - change (Str.contains "" sub) with (Str.startsWith "" sub || false).
    rewrite orb_false_r, startsWith_prefix. split.
    + intros [post E]. now exists "", post.
    + intros ([|x pre] & post & E); [now exists post|discriminate E].
  - change (Str.contains (String c s) sub)
      with (Str.startsWith (String c s) sub || Str.contains s sub).
    rewrite orb_true_iff, IH, startsWith_prefix. split.
    + intros [[post E]|(pre & post & E)].
      * now exists "", post.
      * exists (String c pre), post. simpl. now rewrite E.
    + intros ([|x pre] & post & E).
      * left. now exists post.
      * right. simpl in E. injection E as _ E. now exists pre, post.
Qed.
End SubstringFacts.

Ltac has_substr :=
  repeat first [ apply HasSubstr_whole | apply HasSubstr_head | apply HasSubstr_skip ].

(** ** Disk images *)

Section ImageFacts.
Import Image.
Context {W : Type} `{World W}.

Lemma qemuimg_failed_mentions (doing : string) (state : ProcessState) (err : string) :
  exists msg, qemuimg_failed doing state err = runtime_error msg
              /\ Str.HasSubstr "qemu-img failed" msg
              /\ Str.HasSubstr (failure_message state) msg
              /\ Str.HasSubstr err msg.
Proof.
  eexists. split; [reflexivity|]. split; [|split].
  - apply HasSubstr_skip. exists ": ", (" (" ++ failure_message state
                                        ++ ") with output:" ++ Str.nl ++ err).
    reflexivity.
  - has_substr.
  - has_substr.
Qed.
End ImageFacts.

(** C4.  [resize_instance_image] runs the tool exactly once, as
    [qemu-img resize <image_path> <bytes>] with [<bytes>] the decimal byte
    count of the target size, under [image_resize_timeout]; when the run
    does not complete successfully it throws an error that carries the
    tool's failure message and its standard error, and otherwise it returns.
    A target of [3G] gives the argument [3221225472]. *)
Theorem resize_runs_tool_once :
  forall (W : Type) (HW : Image.World W) (disk_space : MemorySize.t) (image_path : string)
         (st : St W Image.Event),
    let tool := Image.qemuimg ["resize"; image_path; Str.number (MemorySize.bytes disk_space)] in
    let bound := Some Image.image_resize_timeout in
    let outcome := fst (Image.execute tool bound (world st)) in
    (exists r st' events,
        Image.resize_instance_image disk_space image_path st = (r, st')
        /\ trace st' = (trace st ++ events)%list
        /\ Image.invocations events = [(tool, bound)]
        /\ In (Image.Execute tool bound outcome) events
        /\ (Image.completed_successfully outcome = true -> r = Ok tt)
        /\ (Image.completed_successfully outcome = false ->
            exists msg,
              r = Throw (runtime_error msg)
              /\ Str.HasSubstr (Image.failure_message outcome) msg
              /\ Str.HasSubstr
                   (fst (Image.read_all_standard_error tool
                           (snd (Image.execute tool bound (world st))))) msg))
    /\ (forall m, MemorySize.of_string "3G" = Ok m ->
                  Str.number (MemorySize.bytes m) = "3221225472").
Proof.
  intros W HW disk_space image_path st tool bound outcome. split.
  - unfold Image.resize_instance_image, Image.create_process, bind, ask, tell, ret, throw.
    fold tool. fold bound. subst outcome. simpl.
    destruct (Image.execute tool bound (world st)) as [state w1] eqn:Eexec. simpl.
    destruct (Image.completed_successfully state) eqn:Eok; simpl.
    + eexists _, _, [Image.Create tool; Image.Execute tool bound state].
      split; [reflexivity|]. simpl.
      split; [now rewrite <- app_assoc|].
      split; [reflexivity|]. split; [auto|].
      split; [reflexivity|discriminate].
    + destruct (Image.read_all_standard_error tool w1) as [err w2] eqn:Eerr.
      eexists _, _, [Image.Create tool; Image.Execute tool bound state;
                     Image.StandardError tool err].
      split; [reflexivity|]. simpl.
      split; [now rewrite <- !app_assoc|].
      split; [reflexivity|]. split; [auto|].
      split; [discriminate|]. intros _.
      destruct (qemuimg_failed_mentions "Cannot resize instance image" state err)
        as (msg & Emsg & _ & Hfm & Herr).
      exists msg. rewrite Emsg. auto.
  - intros m Hm. vm_compute in Hm. injection Hm as <-. reflexivity.
Qed.

(** C3.  [convert_to_qcow_if_necessary]: when the [info] run fails, the
    tool was run once and the error carries its failure message and
    standard error; when it succeeds and the [format] read from its output
    is not ["raw"] (as for output that is not JSON, or has no such string
    member), the original path comes back after that single run; when the
    format is ["raw"] the tool is run a second time to convert, giving
    [<path>.qcow2] on success and, on failure, an error that carries the
    failure message and standard error of the convert run. *)
Theorem convert_to_qcow_cases :
  forall (W : Type) (HW : Image.World W) (image_path : string) (st : St W Image.Event),
    let info_tool := Image.qemuimg ["info"; "--output=json"; image_path] in
    let convert_tool :=
      Image.qemuimg ["convert"; "-p"; "-O"; "qcow2"; image_path; image_path ++ ".qcow2"] in
    let bound := Some Image.image_resize_timeout in
    let format_of (output : string) :=
      Image.toString (Image.member "format" (Image.object (Image.fromJson output))) in
    (exists r st' events,
        Image.convert_to_qcow_if_necessary image_path st = (r, st')
        /\ trace st' = (trace st ++ events)%list
        /\ let (info_state, w1) := Image.execute info_tool None (world st) in
           if Image.completed_successfully info_state then
             let (output, w2) := Image.read_all_standard_output info_tool w1 in
             (format_of output <> "raw" ->
              r = Ok image_path /\ Image.invocations events = [(info_tool, None)])
             /\ (format_of output = "raw" ->
                 let (convert_state, w3) := Image.execute convert_tool bound w2 in
                 Image.invocations events = [(info_tool, None); (convert_tool, bound)]
                 /\ (Image.completed_successfully convert_state = true ->
                     r = Ok (image_path ++ ".qcow2"))
                 /\ (Image.completed_successfully convert_state = false ->
                     exists msg,
                       r = Throw (runtime_error msg)
                       /\ Str.HasSubstr (Image.failure_message convert_state) msg
                       /\ Str.HasSubstr (fst (Image.read_all_standard_error convert_tool w3)) msg))
           else
             exists msg,
               r = Throw (runtime_error msg)
               /\ Image.invocations events = [(info_tool, None)]
               /\ Str.HasSubstr (Image.failure_message info_state) msg
               /\ Str.HasSubstr (fst (Image.read_all_standard_error info_tool w1)) msg)
    /\ (forall output,
           match Image.fromJson output with
           | Image.DocNull | Image.DocArray _ => True
           | Image.DocObject members =>
               match Image.member "format" members with
               | Image.JString s => s <> "raw"
               | _ => True
               end
           end ->
           format_of output <> "raw").
Proof.
  intros W HW image_path st info_tool convert_tool bound format_of. split.
  - unfold Image.convert_to_qcow_if_necessary, Image.create_process, bind, ask, tell, ret, throw.
    fold info_tool. fold convert_tool. fold bound. simpl.
    destruct (Image.execute info_tool None (world st)) as [info_state w1] eqn:Einfo. simpl.
    destruct (Image.completed_successfully info_state) eqn:Eok; simpl.
    + destruct (Image.read_all_standard_output info_tool w1) as [output w2] eqn:Eout. simpl.
      fold (format_of output).
      destruct (String.eqb_spec (format_of output) "raw") as [Eraw|Eraw].
      * simpl.
        destruct (Image.execute convert_tool bound w2) as [convert_state w3] eqn:Econv. simpl.
        destruct (Image.completed_successfully convert_state) eqn:Eok2; simpl.
        -- eexists _, _, [Image.Create info_tool; Image.Execute info_tool None info_state;
                          Image.StandardOutput info_tool output; Image.Create convert_tool;
                          Image.Execute convert_tool bound convert_state].
           split; [reflexivity|]. simpl. split; [now rewrite <- !app_assoc|].
           split; [intros Hne; contradiction|]. intros _.
           split; [reflexivity|]. split; [reflexivity|discriminate].
        -- destruct (Image.read_all_standard_error convert_tool w3) as [err w4] eqn:Eerr.
           eexists _, _, [Image.Create info_tool; Image.Execute info_tool None info_state;
                          Image.StandardOutput info_tool output; Image.Create convert_tool;
                          Image.Execute convert_tool bound convert_state;
                          Image.StandardError convert_tool err].
           split; [reflexivity|]. simpl. split; [now rewrite <- !app_assoc|].
           split; [intros Hne; contradiction|]. intros _.
           split; [reflexivity|]. split; [discriminate|]. intros _.
           destruct (qemuimg_failed_mentions "Failed to convert image format" convert_state err)
             as (msg & Emsg & _ & Hfm & Herr).
           exists msg. rewrite Emsg. auto.
      * eexists _, _, [Image.Create info_tool; Image.Execute info_tool None info_state;
                       Image.StandardOutput info_tool output].
        split; [reflexivity|]. simpl. split; [now rewrite <- !app_assoc|].
        split; [intros _; split; reflexivity|]. intros Hraw; contradiction.
    + destruct (Image.read_all_standard_error info_tool w1) as [err w2] eqn:Eerr.
      eexists _, _, [Image.Create info_tool; Image.Execute info_tool None info_state;
                     Image.StandardError info_tool err].
      split; [reflexivity|]. simpl. split; [now rewrite <- !app_assoc|].
      destruct (qemuimg_failed_mentions "Cannot read image format" info_state err)
        as (msg & Emsg & _ & Hfm & Herr).
      exists msg. rewrite Emsg. auto.
  - intros output Hdoc. unfold format_of.
    destruct (Image.fromJson output) as [|items|members]; simpl;
      try (intros E; discriminate E).
    destruct (Image.member "format" members); simpl; try (intros E; discriminate E).
    exact Hdoc.
Qed.

Lemma resize_runs_tool_once_witness :
  Image.completed_successfully Doubles.crash = false
  /\ exists st' msg,
      Image.resize_instance_image (MemorySize.mk 3221225472) "ubuntu"
        (Doubles.tool Doubles.success "" Doubles.success Doubles.crash)
      = (Throw (runtime_error msg), st')
      /\ Image.invocations (trace st')
         = [(Image.qemuimg ["resize"; "ubuntu"; "3221225472"], Some 300000)]
      /\ Str.HasSubstr "core dumped" msg
      /\ Str.HasSubstr "not found" msg.
Proof.
  split; [reflexivity|].
  destruct (proj1 (resize_runs_tool_once Doubles.FakeTool Doubles.fake_tool
                     (MemorySize.mk 3221225472) "ubuntu"
                     (Doubles.tool Doubles.success "" Doubles.success Doubles.crash)))
    as (r & st' & events & Hrun & Htrace & Hinv & Hin & _ & Hfail).
  destruct (Hfail eq_refl) as (msg & -> & Hfm & Herr).
  exists st', msg. split; [exact Hrun|].
  split; [rewrite Htrace; exact Hinv|].
  split; [exact Hfm|exact Herr].
Defined.

Lemma convert_to_qcow_cases_witness :
  Image.toString (Image.member "format" (Image.object (Image.fromJson (Doubles.json_format "raw"))))
  = "raw"
  /\ Image.completed_successfully Doubles.success = true
  /\ exists st',
      Image.convert_to_qcow_if_necessary "/fake/img/path"
        (Doubles.tool Doubles.success (Doubles.json_format "raw") Doubles.success Doubles.success)
      = (Ok "/fake/img/path.qcow2", st')
      /\ List.length (Image.invocations (trace st')) = 2%nat.
Proof.
  split; [reflexivity|]. split; [reflexivity|].
  destruct (proj1 (convert_to_qcow_cases Doubles.FakeTool Doubles.fake_tool "/fake/img/path"
                     (Doubles.tool Doubles.success (Doubles.json_format "raw")
                        Doubles.success Doubles.success)))
    as (r & st' & events & Hrun & Htrace & Hcases).
  vm_compute in Hcases. destruct Hcases as [_ Hraw].
  destruct (Hraw eq_refl) as (Hinv & Hok & _).
  exists st'. rewrite Hrun, (Hok eq_refl). split; [reflexivity|].
  rewrite Htrace. unfold Doubles.tool. cbn [trace]. rewrite app_nil_l.
  rewrite (Hinv : Image.invocations events = [(_, _); (_, _)]). reflexivity.
Defined.

(** ** Bridge creation *)

Section BridgeFacts.
Import Bridge.

Lemma create_bridge_what_mentions (detail : string) (e : QDBusError) :
  Str.HasSubstr "Could not create bridge" (create_bridge_what detail e false)
  /\ Str.HasSubstr detail (create_bridge_what detail e false)
  /\ Str.HasSubstr (if isValid e then message e else "unknown cause")
                   (create_bridge_what detail e false).
Proof.
  unfold create_bridge_what. split; [|split].
  - apply HasSubstr_head.
  - apply HasSubstr_skip. apply HasSubstr_skip. apply HasSubstr_head.
  - has_substr.
Qed.

End BridgeFacts.

(** C2 (as amended).  When the system bus reports that it is not connected,
    [create_bridge_with] throws a [CreateBridgeException] whose message
    contains "Could not create bridge", "Failed to connect" and the message
    of the bus's last error when that error is valid, that is, when its
    type is not [NoError], and "unknown cause" when it is not valid; the
    only things asked of the bus are [is_connected] and [last_error]: no
    interface is resolved and no method is called. *)
Theorem create_bridge_bus_disconnected :
  forall (W : Type) (HW : Bridge.World W) (interface : string) (st : St W Bridge.Event),
    fst (Bridge.is_connected (world st)) = false ->
    exists msg e st',
      Bridge.create_bridge_with interface st = (Throw (CreateBridgeException msg), st')
      /\ e = fst (Bridge.last_error (snd (Bridge.is_connected (world st))))
      /\ Str.HasSubstr "Could not create bridge" msg
      /\ Str.HasSubstr "Failed to connect" msg
      /\ Str.HasSubstr (if Bridge.isValid e then Bridge.message e else "unknown cause") msg
      /\ trace st' = (trace st ++ [Bridge.IsConnected false; Bridge.LastError e])%list.
Proof.
  intros W HW interface st Hdown.
  unfold Bridge.create_bridge_with, Bridge.get_checked_system_bus, bind, ask, throw.
  destruct (Bridge.is_connected (world st)) as [connected w1] eqn:Econn.
  simpl in Hdown. subst connected. simpl.
  destruct (Bridge.last_error w1) as [e w2] eqn:Eerr. simpl.
  exists (Bridge.create_bridge_what "Failed to connect to D-Bus system bus" e false), e.
  eexists. split; [reflexivity|]. split; [reflexivity|].
  destruct (create_bridge_what_mentions "Failed to connect to D-Bus system bus" e)
    as (Hcreate & Hdetail & Hcause).
  split; [exact Hcreate|]. split.
  - unfold Bridge.create_bridge_what. apply HasSubstr_skip. apply HasSubstr_skip.
    exists "", (" to D-Bus system bus" ++ ": "
                ++ (if Bridge.isValid e then Bridge.message e else "unknown cause")).
    reflexivity.
  - split; [exact Hcause|]. simpl. now rewrite <- app_assoc.
Qed.

Lemma create_bridge_bus_disconnected_witness :
  fst (Bridge.is_connected (world Doubles.bus_disconnected)) = false
  /\ exists msg st',
      Bridge.create_bridge_with "asdf" Doubles.bus_disconnected
      = (Throw (CreateBridgeException msg), st')
      /\ Str.HasSubstr "DBus error msg" msg.
Proof.
  assert (Hdown : fst (Bridge.is_connected (world Doubles.bus_disconnected)) = false)
    by reflexivity.
  split; [exact Hdown|].
  destruct (create_bridge_bus_disconnected _ _ "asdf" Doubles.bus_disconnected Hdown)
    as (msg & e & st' & Hrun & He & _ & _ & Hcause & _).
  exists msg, st'. split; [exact Hrun|]. subst e. exact Hcause.
Defined.

(** C2 as stated fails on when "unknown cause" is printed: the constructor
    asks whether the error is valid, not whether it has a message.  A bus
    that is down with a last error of type [Failed] and no message gives a
    text that ends after "system bus: " and nowhere says "unknown
    cause". *)
Lemma create_bridge_unknown_cause_counterexample :
  let st := Doubles.bus_disconnected_without_text in
  let e := fst (Bridge.last_error (snd (Bridge.is_connected (world st)))) in
  let text := "Could not create bridge. Failed to connect to D-Bus system bus: " in
  fst (Bridge.is_connected (world st)) = false
  /\ Bridge.message e = EmptyString
  /\ Bridge.isValid e = true
  /\ fst (Bridge.create_bridge_with "eth0" st) = Throw (CreateBridgeException text)
  /\ ~ Str.HasSubstr "unknown cause" text.
Proof.
  cbv zeta. split; [reflexivity|]. split; [reflexivity|]. split; [reflexivity|].
  split; [vm_compute; reflexivity|].
  intros Hsub. apply contains_HasSubstr in Hsub. vm_compute in Hsub. discriminate Hsub.
Qed.

(** One step of symbolic execution through the bridge code. *)
Ltac step_bridge :=
  unfold Bridge.get_checked_system_bus, Bridge.get_checked_interface,
    Bridge.with_frame, Bridge.scope_guard, Bridge.make_bridge_rollback_guard, Bridge.lift,
    Bridge.get_frame, Bridge.set_frame, Bridge.checked_dbus_call, Bridge.rollback,
    Bridge.top_catch_all, Bridge.log, bind, ask, tell, ret, throw;
  cbn [world trace fst snd negb Bridge.for_each
       Bridge.parent_path Bridge.child_path Bridge.dismissed Bridge.path].

(** C1 (as amended).  When both [AddConnection] calls succeed with non-null
    object paths and [ActivateConnection] then fails, the rollback sends
    [Delete] to the child connection first and, when that call succeeds,
    to the parent connection next; the error that reaches the caller is the
    activation failure, a [CreateBridgeException] tagged "Could not create
    bridge", whatever happens during the rollback; a [Delete] that fails is
    logged at error level and goes no further. *)
Theorem create_bridge_activation_failure_rolls_back :
  forall (W : Type) (HW : Bridge.World W) (interface : string) (st : St W Bridge.Event)
         (w1 w2 w3 w4 w5 w6 w7 w8 : W) (m1 m2 m3 d1 d2 : Bridge.QDBusMessage)
         (parent child : string) (e : Bridge.QDBusError),
    let nm_root := Bridge.mkInterface Bridge.nm_bus_name Bridge.nm_root_obj Bridge.nm_root_ifc in
    let nm_settings :=
      Bridge.mkInterface Bridge.nm_bus_name Bridge.nm_settings_obj Bridge.nm_settings_ifc in
    let parent_name := Str.left Bridge.max_bridge_name_len (Bridge.base_name ++ interface) in
    let settings :=
      Bridge.make_connection_settings parent_name (parent_name ++ "-child") interface in
    let activate_args :=
      [Bridge.ArgObjectPath (Bridge.mkPath (Some child));
       Bridge.ArgObjectPath Bridge.root_path; Bridge.ArgObjectPath Bridge.root_path] in
    let child_connection :=
      Bridge.mkInterface Bridge.nm_bus_name child Bridge.nm_connection_ifc in
    let parent_connection :=
      Bridge.mkInterface Bridge.nm_bus_name parent Bridge.nm_connection_ifc in
    Bridge.is_connected (world st) = (true, w1) ->
    Bridge.is_valid nm_root (Bridge.get_interface nm_root w1) = (true, w2) ->
    Bridge.is_valid nm_settings (Bridge.get_interface nm_settings w2) = (true, w3) ->
    Bridge.call nm_settings "AddConnection" [Bridge.ArgSettings (fst settings)] w3 = (m1, w4) ->
    Bridge.reply_object_path m1 = inr (Bridge.mkPath (Some parent)) ->
    Bridge.call nm_settings "AddConnection" [Bridge.ArgSettings (snd settings)] w4 = (m2, w5) ->
    Bridge.reply_object_path m2 = inr (Bridge.mkPath (Some child)) ->
    Bridge.call nm_root "ActivateConnection" activate_args w5 = (m3, w6) ->
    Bridge.reply_object_path m3 = inl e ->
    Bridge.call child_connection "Delete" [] (Bridge.get_interface child_connection w6)
    = (d1, w7) ->
    Bridge.call parent_connection "Delete" [] (Bridge.get_interface parent_connection w7)
    = (d2, w8) ->
    exists st' before after,
      Bridge.create_bridge_with interface st
      = (Throw (Bridge.mkCreateBridgeException
                  (Bridge.failed_call_detail nm_root "ActivateConnection") e false), st')
      /\ trace st'
         = (trace st ++ before ++ Bridge.Call nm_root "ActivateConnection" activate_args m3
                     :: after)%list
      /\ Bridge.deleted before = []
      /\ (exists rest, Bridge.deleted after = child :: rest)
      /\ (Bridge.reply_void d1 = inr tt -> Bridge.deleted after = [child; parent])
      /\ (forall err, Bridge.reply_void d1 = inl err ->
            Bridge.logged_errors after
            = [(Bridge.log_category_rollback,
                Bridge.create_bridge_what
                  (Bridge.failed_call_detail child_connection "Delete") err true)])
      /\ (forall err, Bridge.reply_void d1 = inr tt -> Bridge.reply_void d2 = inl err ->
            Bridge.logged_errors after
            = [(Bridge.log_category_rollback,
                Bridge.create_bridge_what
                  (Bridge.failed_call_detail parent_connection "Delete") err true)])
      /\ (Bridge.reply_void d1 = inr tt -> Bridge.reply_void d2 = inr tt ->
            Bridge.logged_errors after = []).
Proof.
  intros W HW interface st w1 w2 w3 w4 w5 w6 w7 w8 m1 m2 m3 d1 d2 parent child e
         nm_root nm_settings parent_name settings activate_args child_connection
         parent_connection Hconn Hroot Hsettings Hadd1 Hp Hadd2 Hc Hact He Hdel1 Hdel2.
  subst nm_root nm_settings parent_name settings activate_args child_connection
        parent_connection.
  unfold Bridge.create_bridge_with, Bridge.make_connection_settings in *.
  cbn [fst snd] in *.
  step_bridge. rewrite Hconn.
  step_bridge. rewrite Hroot.
  step_bridge. rewrite Hsettings.
  step_bridge. rewrite Hadd1. step_bridge. rewrite Hp.
  step_bridge. rewrite Hadd2. step_bridge. rewrite Hc.
  step_bridge. rewrite Hact. step_bridge. rewrite He.
  step_bridge. rewrite Hdel1. step_bridge.
  destruct (Bridge.reply_void d1) as [err1|[]] eqn:Ed1.
  - step_bridge.
    eexists _, [_; _; _; _; _; _; _; _], _.
    split; [reflexivity|]. cbn [snd trace].
    split; [rewrite <- !app_assoc; cbn [app]; reflexivity|].
    split; [reflexivity|].
    split; [eexists; reflexivity|].
    split; [discriminate|].
    split; [intros err [= <-]; reflexivity|].
    split; discriminate.
  - step_bridge. rewrite Hdel2. step_bridge.
    destruct (Bridge.reply_void d2) as [err2|[]] eqn:Ed2; step_bridge.
    + eexists _, [_; _; _; _; _; _; _; _], _.
      split; [reflexivity|]. cbn [snd trace].
      split; [rewrite <- !app_assoc; cbn [app]; reflexivity|].
      split; [reflexivity|].
      split; [eexists; reflexivity|].
      split; [reflexivity|].
      split; [discriminate|].
      split; [intros err _ [= <-]; reflexivity|discriminate].
    + eexists _, [_; _; _; _; _; _; _; _], _.
      split; [reflexivity|]. cbn [snd trace].
      split; [rewrite <- !app_assoc; cbn [app]; reflexivity|].
      split; [reflexivity|].
      split; [eexists; reflexivity|].
      split; [reflexivity|].
      split; [discriminate|].
      split; [discriminate|reflexivity].
Qed.

Lemma create_bridge_activation_failure_rolls_back_witness :
  exists st' after,
    Bridge.create_bridge_with "eth0" Doubles.bus_activation_fails
    = (Throw (Bridge.mkCreateBridgeException
                (Bridge.failed_call_detail
                   (Bridge.mkInterface Bridge.nm_bus_name Bridge.nm_root_obj Bridge.nm_root_ifc)
                   "ActivateConnection")
                Doubles.activation_refused false), st')
    /\ Bridge.deleted after = ["/child"; "/parent"]
    /\ Bridge.logged_errors after = [].
Proof.
  edestruct (create_bridge_activation_failure_rolls_back
               Doubles.FakeBus Doubles.fake_bus "eth0" Doubles.bus_activation_fails)
    as (st' & before & after & Hrun & _ & _ & _ & Hboth & _ & _ & Hquiet);
    try reflexivity.
  exists st', after. split; [exact Hrun|].
  split; [apply Hboth; reflexivity|apply Hquiet; reflexivity].
Defined.

(** C1 as stated fails when the [Delete] sent to the child connection is
    itself refused: both connections were added, activation failed, the
    child was sent [Delete], and the parent never was.  The error that
    comes out is still the activation failure. *)
Lemma create_bridge_rollback_counterexample :
  let run := Bridge.create_bridge_with "eth0" Doubles.bus_rollback_fails in
  fst run
  = Throw (Bridge.mkCreateBridgeException
             (Bridge.failed_call_detail
                (Bridge.mkInterface Bridge.nm_bus_name Bridge.nm_root_obj Bridge.nm_root_ifc)
                "ActivateConnection")
             Doubles.activation_refused false)
  /\ Bridge.called (trace (snd run))
     = [(Bridge.nm_settings_obj, "AddConnection"); (Bridge.nm_settings_obj, "AddConnection");
        (Bridge.nm_root_obj, "ActivateConnection"); ("/child", "Delete")]
  /\ Bridge.deleted (trace (snd run)) = ["/child"]
  /\ Bridge.deleted (trace (snd run)) <> ["/child"; "/parent"].
Proof.
  cbv zeta. split; [vm_compute; reflexivity|].
  split; [vm_compute; reflexivity|].
  split; [vm_compute; reflexivity|].
  vm_compute. discriminate.
Qed.

(** ** The acceleration device *)

Section KvmFacts.
Import Kvm.




End KvmFacts.

Section KvmRun.
Import Kvm.
Context {W : Type} `{World W}.



End KvmRun.



(** ** Subnet allocation *)

Section SubnetFacts.
Import Subnet.
Context {W : Type} `{World W}.

(** [uniform_int_distribution<int>{0, 255}] stays within its bounds. *)
Hypothesis dist_range : forall w : W, 0 <= fst (dist_gen w) <= 255.

End SubnetFacts.

(** An accepted prefix does not occur anywhere in the routing table that was
    read for it. *)
Lemma accepted_not_listed (subnet : string) (turn : list Subnet.Event) :
  Subnet.accepted subnet turn ->
  exists routes,
    In (Subnet.CmdOutput "ip" Subnet.ip_route_show routes) turn
    /\ ~ Str.HasSubstr subnet routes.
Proof.
  intros [a b routes _ _ _ Hfree]. exists routes. split; [simpl; auto|].
  intros Hsub. apply contains_HasSubstr in Hsub. congruence.
Qed.



Section RouteFacts.
Lemma split_not_nil (sep : ascii) (s : string) : Str.split sep s <> [].
Proof.
  destruct s as [|c r]; simpl; [discriminate|].
  destruct (Ascii.eqb c sep); [discriminate|].
  destruct (Str.split sep r); discriminate.
Qed.

(** Joining the fields of a string gives the string back. *)
Lemma join_split (sep : ascii) (s : string) : Str.join sep (Str.split sep s) = s.
Proof.
  induction s as [|c r IH]; [reflexivity|].
  cbn [Str.split]. destruct (Ascii.eqb_spec c sep) as [->|Hne].
  - pose proof (split_not_nil sep r) as Hnil.
    destruct (Str.split sep r) as [|x l]; [contradiction|].
    cbn [Str.join] in *. simpl. now rewrite IH.
  - pose proof (split_not_nil sep r) as Hnil.
    destruct (Str.split sep r) as [|x l]; [contradiction|].
    destruct l as [|y l]; cbn [Str.join] in *; simpl; now rewrite <- IH.
Qed.

(** The section of a line that is not empty is not empty. *)
Lemma section_not_empty (sep : ascii) (line : string) :
  line <> "" -> Str.section sep 0 2 line <> "".
Proof.
  intros Hline. unfold Str.section. cbn [Nat.sub skipn].
  pose proof (join_split sep line) as Hjoin.
  pose proof (split_not_nil sep line) as Hnil.
  destruct (Str.split sep line) as [|x [|y l]]; [contradiction| |].
  - cbn [firstn Str.join] in *. congruence.
  - cbn [firstn]. cbn [Str.join]. destruct (firstn 1 l); destruct x; discriminate.
Qed.

(** The loop stops at the first line that contains the bridge name. *)
Lemma first_route_naming_found (bridge_name line : string) (before after : list string) :
  Forall (fun l => Str.contains l bridge_name = false) before ->
  Str.contains line bridge_name = true ->
  Subnet.first_route_naming bridge_name (before ++ line :: after)
  = Str.section "." 0 2 line.
Proof.
  intros Hbefore Hline. induction Hbefore as [|l before Hl _ IH]; cbn.
  - now rewrite Hline.
  - now rewrite Hl.
Qed.
End RouteFacts.

(** What [get_subnet] runs, source by source in the order it tries them:
    the first three dot-separated fields of the first line of the routing
    table that contains [bridge_name], when there is such a line, without
    touching the file; otherwise what [network_dir/multipass_subnet] holds
    with the white space around it trimmed, when the file has a positive
    size; otherwise a freshly allocated subnet, written to that file before
    it is returned (and the allocator's error when it finds none). *)
Lemma get_subnet_sources :
  forall (W : Type) (HW : Subnet.World W) (network_dir bridge_name : string)
         (st : St W Subnet.Event),
    let file := Subnet.subnet_file network_dir in
    let routes := fst (Subnet.run_cmd_for_output "ip" Subnet.ip_route_show (world st)) in
    let w1 := snd (Subnet.run_cmd_for_output "ip" Subnet.ip_route_show (world st)) in
    let live := Subnet.first_route_naming bridge_name (Str.split (ascii_of_nat 10) routes) in
    let asked := Subnet.CmdOutput "ip" Subnet.ip_route_show routes in
    let size := fst (Subnet.file_size file (Subnet.file_open file w1)) in
    let w2 := snd (Subnet.file_size file (Subnet.file_open file w1)) in
    let looked :=
      [asked;
       Subnet.Log info "daemon" ("Unable to determine subnet for the " ++ bridge_name ++ " subnet");
       Subnet.FileOpen file; Subnet.FileSize file size] in
    (forall before line after,
        Str.split (ascii_of_nat 10) routes = (before ++ line :: after)%list ->
        Forall (fun l => Str.contains l bridge_name = false) before ->
        Str.contains line bridge_name = true ->
        line <> "" ->
        live = Str.section "." 0 2 line /\ live <> "")
    /\ (live <> "" ->
        Subnet.get_subnet network_dir bridge_name st
        = (Ok live, mkSt w1 (trace st ++ [asked])))
    /\ (live = "" -> 0 < size ->
        let data := fst (Subnet.file_readAll file w2) in
        Subnet.get_subnet network_dir bridge_name st
        = (Ok (Str.trimmed data),
           mkSt (snd (Subnet.file_readAll file w2))
                (trace st ++ looked ++ [Subnet.FileReadAll file data])))
    /\ (live = "" -> size <= 0 ->
        match Subnet.generate_random_subnet (mkSt w2 (trace st ++ looked)) with
        | (Ok new_subnet, s3) =>
            Subnet.get_subnet network_dir bridge_name st
            = (Ok new_subnet,
               mkSt (Subnet.file_write file new_subnet (world s3))
                    (trace s3 ++ [Subnet.FileWrite file new_subnet]))
        | (Throw e, s3) =>
            Subnet.get_subnet network_dir bridge_name st = (Throw e, s3)
        end).
Proof.
  intros W HW network_dir bridge_name st file routes w1 live asked size w2 looked.
  split; [|split; [|split]].
  - intros before line after Hsplit Hbefore Hline Hne. subst live.
    rewrite Hsplit, (first_route_naming_found _ _ _ _ Hbefore Hline).
    split; [reflexivity|apply section_not_empty; exact Hne].
  - intros Hlive.
    unfold Subnet.get_subnet, Subnet.virtual_switch_subnet, Subnet.log, bind, ask, tell, ret.
    subst live asked routes w1.
    destruct (Subnet.run_cmd_for_output "ip" Subnet.ip_route_show (world st)) as [out w].
    cbn [fst snd world trace] in *.
    destruct (Subnet.first_route_naming bridge_name (Str.split (ascii_of_nat 10) out));
      [contradiction|reflexivity].
  - intros Hlive Hsize data.
    unfold Subnet.get_subnet, Subnet.virtual_switch_subnet, Subnet.log, bind, ask, tell, ret.
    subst data looked live asked size w2 routes w1 file.
    destruct (Subnet.run_cmd_for_output "ip" Subnet.ip_route_show (world st)) as [out w].
    cbn [fst snd world trace] in *. rewrite Hlive. cbn [Str.is_empty negb world trace].
    destruct (Subnet.file_size _ _) as [sz w'] eqn:Esize. cbn [fst snd world trace] in *.
    apply Z.ltb_lt in Hsize. rewrite Hsize. cbv beta iota. cbn [world trace].
    destruct (Subnet.file_readAll _ w') as [content w''] eqn:Eread.
    cbn [fst snd world trace]. rewrite <- !app_assoc. cbn [app]. reflexivity.
  - intros Hlive Hsize.
    unfold Subnet.get_subnet, Subnet.virtual_switch_subnet, Subnet.log, bind, ask, tell, ret.
    subst looked live asked size w2 routes w1 file.
    destruct (Subnet.run_cmd_for_output "ip" Subnet.ip_route_show (world st)) as [out w].
    cbn [fst snd world trace] in *. rewrite Hlive. cbn [Str.is_empty negb world trace].
    destruct (Subnet.file_size _ _) as [sz w'] eqn:Esize. cbn [fst snd world trace] in *.
    destruct (Z.ltb_spec 0 sz) as [Hpos|_]; [lia|].
    cbv beta iota. cbn [world trace]. rewrite <- !app_assoc. cbn [app].
    destruct (Subnet.generate_random_subnet _) as [[new_subnet|e] s3]; reflexivity.
Qed.

(** C6.  [get_subnet] at a routing table that lists the default route
    through the bridge before the route of the bridge's own network,
    10.5.0.0/24.  Both lines name the bridge; the /24 prefix of its route
    is "10.5.0".  What comes back is "default via 10.5.0", the first line
    up to its third dot: [virtual_switch_subnet] cuts at the dots only,
    where the CLI equivalent in its comment first keeps the line's first
    space-separated field.  The file is not looked at and no subnet is
    allocated. *)
Lemma get_subnet_default_route_line :
  let default_route := "default via 10.5.0.1 dev mpqemubr0" in
  let bridge_route := "10.5.0.0/24 dev mpqemubr0 proto kernel scope link src 10.5.0.1" in
  let table := default_route ++ Str.nl ++ bridge_route ++ Str.nl in
  let st := Doubles.net table [] 5 [] in
  let run := Subnet.get_subnet "/net" "mpqemubr0" st in
  Str.split (ascii_of_nat 10) table = [default_route; bridge_route; EmptyString]
  /\ Str.contains bridge_route "mpqemubr0" = true
  /\ Str.section "." 0 2 bridge_route = "10.5.0"
  /\ fst run = Ok "default via 10.5.0"
  /\ fst run <> Ok "10.5.0"
  /\ trace (snd run) = [Subnet.CmdOutput "ip" Subnet.ip_route_show table].
Proof.
  cbv zeta.
  pose proof (get_subnet_sources Doubles.FakeNet Doubles.fake_net "/net" "mpqemubr0"
                (Doubles.net ("default via 10.5.0.1 dev mpqemubr0" ++ Str.nl
                              ++ "10.5.0.0/24 dev mpqemubr0 proto kernel scope link src 10.5.0.1"
                              ++ Str.nl) [] 5 [])) as Hspec.
  cbv zeta in Hspec. destruct Hspec as (Hroute & Hlive & _).
  destruct (Hroute [] "default via 10.5.0.1 dev mpqemubr0"
              ["10.5.0.0/24 dev mpqemubr0 proto kernel scope link src 10.5.0.1"; EmptyString])
    as [Hsection Hne]; [reflexivity|constructor|reflexivity|discriminate|].
  rewrite (Hlive Hne), Hsection.
  split; [reflexivity|]. split; [reflexivity|]. split; [reflexivity|].
  split; [reflexivity|]. split; [vm_compute; discriminate|reflexivity].
Qed.

(** * Further properties *)

(** ** Memory sizes: what parses, and how sizes compare and convert *)

Section MemorySizeMore.
Import MemorySize.

(** [in_bytes] on any run of digits with its suffix. *)
Lemma in_bytes_digits (ds : string) (u : unit_suffix) (b : b_suffix) :
  Str.all_digits ds = true -> Str.is_empty ds = false ->
  in_bytes (ds ++ unit_text u ++ b_text b)
  = Ok (match u with
        | NoUnit => toLongLong ds
        | _ => wrap64 (toLongLong ds * multiplier u)
        end).
Proof.
  intros Hds Hne. unfold in_bytes.
  rewrite (app_not_empty _ _ Hne), (exactMatch_shape _ u b Hds Hne).
  destruct u as [|[]|[]|[]]; reflexivity.
Qed.

Lemma toLongLong_leading_zero (ds : string) :
  Str.is_empty ds = false -> toLongLong (String "0" ds) = toLongLong ds.
Proof.
  intros Hne. unfold toLongLong. cbn [NilEmpty.uint_of_string Str.is_empty].
  rewrite Hne. destruct (NilEmpty.uint_of_string ds) as [d|]; reflexivity.
Qed.

Lemma parsed_bytes (n : N) (u : unit_suffix) (b : b_suffix) :
  Z.of_N n * multiplier u <= LLONG_MAX ->
  of_string (numeral n ++ unit_text u ++ b_text b) = Ok (mk (Z.of_N n * multiplier u)).
Proof.
  intros Hfit. unfold of_string. rewrite in_bytes_numeral.
  pose proof (multiplier_pos u) as Hm.
  assert (Hn : Z.of_N n <= LLONG_MAX) by nia.
  apply Z.leb_le in Hn. rewrite Hn. cbv zeta.
  destruct u; try (rewrite wrap64_small by lia); try reflexivity.
  f_equal. f_equal. simpl multiplier. lia.
Qed.
End MemorySizeMore.

(** X1.  On ASCII input, parsing fails exactly on the non-empty strings
    outside the language of the expression, and then with the input itself
    in the exception; every other ASCII string gives a size.  The
    hypothesis keeps the statement to the inputs on which
    [MemorySize.exactMatch] is the matcher of the code (see
    [Str.is_ascii]). *)
Theorem memory_size_rejects_exactly_non_matching :
  forall s : string,
    Str.is_ascii s = true ->
    match MemorySize.of_string s with
    | Ok _ => s = "" \/ exists cap1 cap2, MemorySize.matches s cap1 cap2
    | Throw e =>
        e = InvalidMemorySizeException s
        /\ s <> "" /\ forall cap1 cap2, ~ MemorySize.matches s cap1 cap2
    end.
Proof.
  intros s _. unfold MemorySize.of_string, MemorySize.in_bytes.
  destruct s as [|c s]; [left; reflexivity|]. cbn [Str.is_empty].
  destruct (MemorySize.exactMatch (String c s)) as [[cap1 cap2]|] eqn:Ematch.
  - assert (Hm : MemorySize.matches (String c s) cap1 cap2)
      by (apply exactMatch_matches; exact Ematch).
    destruct cap2 as [|u rest]; [right; eauto|].
    destruct (Ascii.eqb (Str.toLower u) "g"); [right; eauto|].
    destruct (Ascii.eqb (Str.toLower u) "m"); [right; eauto|].
    destruct (Ascii.eqb (Str.toLower u) "k"); right; eauto.
  - split; [reflexivity|]. split; [discriminate|].
    intros cap1 cap2 Hm. apply exactMatch_matches in Hm. congruence.
Qed.

Lemma memory_size_rejects_exactly_non_matching_witness :
  Str.is_ascii "1.5G" = true
  /\ MemorySize.of_string "1.5G" = Throw (InvalidMemorySizeException "1.5G").
Proof.
  assert (Hascii : Str.is_ascii "1.5G" = true) by reflexivity.
  split; [exact Hascii|].
  pose proof (memory_size_rejects_exactly_non_matching "1.5G" Hascii) as Hparse.
  destruct (MemorySize.of_string "1.5G") as [m|e] eqn:Erun.
  - vm_compute in Erun. discriminate Erun.
  - destruct Hparse as [-> _]. reflexivity.
Defined.

(** X2.  The case of the unit letter and the trailing [b], in either case
    or absent, make no difference to what a run of digits parses to, also
    beyond the range of [long long]. *)
Theorem memory_size_case_and_b_do_not_matter :
  forall (ds : string) (u u' : MemorySize.unit_suffix) (b b' : MemorySize.b_suffix),
    Str.all_digits ds = true -> ds <> "" ->
    MemorySize.multiplier u = MemorySize.multiplier u' ->
    MemorySize.of_string (ds ++ MemorySize.unit_text u ++ MemorySize.b_text b)
    = MemorySize.of_string (ds ++ MemorySize.unit_text u' ++ MemorySize.b_text b').
Proof.
  intros ds u u' b b' Hds Hne Hmul.
  assert (Hne' : Str.is_empty ds = false) by (destruct ds; [contradiction|reflexivity]).
  unfold MemorySize.of_string. rewrite !in_bytes_digits by assumption.
  destruct u, u'; simpl in Hmul; try discriminate Hmul; reflexivity.
Qed.

Lemma memory_size_case_and_b_do_not_matter_witness :
  MemorySize.of_string "12kb" = MemorySize.of_string "12K"
  /\ MemorySize.of_string "12kb" = Ok (MemorySize.mk 12288).
Proof.
  split; [|reflexivity].
  apply (memory_size_case_and_b_do_not_matter "12" (MemorySize.UnitK false)
           (MemorySize.UnitK true) MemorySize.LowerB MemorySize.NoB);
    [reflexivity|discriminate|reflexivity].
Defined.

(** X3.  Leading zeros are ignored: a zero put in front of a run of digits
    does not change what the string parses to. *)
Theorem memory_size_leading_zero :
  forall (ds : string) (u : MemorySize.unit_suffix) (b : MemorySize.b_suffix),
    Str.all_digits ds = true -> ds <> "" ->
    MemorySize.of_string (String "0" ds ++ MemorySize.unit_text u ++ MemorySize.b_text b)
    = MemorySize.of_string (ds ++ MemorySize.unit_text u ++ MemorySize.b_text b).
Proof.
  intros ds u b Hds Hne.
  assert (Hne' : Str.is_empty ds = false) by (destruct ds; [contradiction|reflexivity]).
  unfold MemorySize.of_string.
  rewrite (in_bytes_digits (String "0" ds) u b) by (simpl; auto).
  rewrite (in_bytes_digits ds u b) by assumption.
  rewrite toLongLong_leading_zero by assumption. reflexivity.
Qed.

Lemma memory_size_leading_zero_witness :
  MemorySize.of_string "007M" = MemorySize.of_string "07M"
  /\ MemorySize.of_string "007M" = Ok (MemorySize.mk 7340032).
Proof.
  split; [|reflexivity].
  apply (memory_size_leading_zero "07" (MemorySize.UnitM true) MemorySize.NoB);
    [reflexivity|discriminate].
Defined.

(** X4.  Round trip: the decimal rendering of a size between 0 and
    [LLONG_MAX] bytes parses back to that size. *)
Theorem memory_size_number_round_trip :
  forall m : MemorySize.t,
    0 <= MemorySize.bytes m <= MemorySize.LLONG_MAX ->
    MemorySize.of_string (Str.number (MemorySize.bytes m)) = Ok m.
Proof.
  intros m Hrange. exact (number_parses_back m Hrange).
Qed.

Lemma memory_size_number_round_trip_witness :
  Str.number 1234554321 = "1234554321"
  /\ MemorySize.of_string "1234554321" = Ok (MemorySize.mk 1234554321).
Proof.
  split; [reflexivity|].
  apply (memory_size_number_round_trip (MemorySize.mk 1234554321)).
  vm_compute. split; discriminate.
Defined.

(** X5.  The unit accessors floor: for a size of at least 0 bytes each
    gives the largest whole number of its unit that fits, and converting to
    a larger unit is the same as converting step by step. *)
Theorem memory_size_accessors_floor :
  forall m : MemorySize.t,
    0 <= MemorySize.bytes m ->
    (1024 * MemorySize.in_kilobytes m <= MemorySize.bytes m
       < 1024 * MemorySize.in_kilobytes m + 1024)
    /\ (1024 ^ 2 * MemorySize.in_megabytes m <= MemorySize.bytes m
          < 1024 ^ 2 * MemorySize.in_megabytes m + 1024 ^ 2)
    /\ (1024 ^ 3 * MemorySize.in_gigabytes m <= MemorySize.bytes m
          < 1024 ^ 3 * MemorySize.in_gigabytes m + 1024 ^ 3)
    /\ MemorySize.in_megabytes m = Z.quot (MemorySize.in_kilobytes m) 1024
    /\ MemorySize.in_gigabytes m = Z.quot (MemorySize.in_megabytes m) 1024.
Proof.
  intros [b] Hb. cbn [MemorySize.bytes] in *.
  unfold MemorySize.in_kilobytes, MemorySize.in_megabytes, MemorySize.in_gigabytes,
    MemorySize.giga, MemorySize.mega, MemorySize.kilo. cbn [MemorySize.bytes].
  change (1024 * 1024 * 1024) with 1073741824. change (1024 * 1024) with 1048576.
  change (1024 ^ 3) with 1073741824. change (1024 ^ 2) with 1048576.
  rewrite !Z.quot_div_nonneg by lia.
  pose proof (Z.mul_div_le b 1024 ltac:(lia)).
  pose proof (Z.mul_succ_div_gt b 1024 ltac:(lia)).
  pose proof (Z.mul_div_le b 1048576 ltac:(lia)).
  pose proof (Z.mul_succ_div_gt b 1048576 ltac:(lia)).
  pose proof (Z.mul_div_le b 1073741824 ltac:(lia)).
  pose proof (Z.mul_succ_div_gt b 1073741824 ltac:(lia)).
  repeat split; try lia.
  - rewrite Z.quot_div_nonneg by (try apply Z.div_pos; lia).
    rewrite Z.div_div by lia. reflexivity.
  - rewrite Z.quot_div_nonneg by (try apply Z.div_pos; lia).
    rewrite Z.div_div by lia. reflexivity.
Qed.

Lemma memory_size_accessors_floor_witness :
  MemorySize.in_kilobytes (MemorySize.mk 1023) = 0
  /\ 1024 * MemorySize.in_kilobytes (MemorySize.mk 1023) <= 1023
       < 1024 * MemorySize.in_kilobytes (MemorySize.mk 1023) + 1024.
Proof.
  split; [reflexivity|].
  apply (memory_size_accessors_floor (MemorySize.mk 1023)). simpl. lia.
Defined.

(** X6.  Sizes written in different units compare by the number of bytes
    they stand for: for two numerals with their units, both within range,
    [==], [<], [<=] and their opposites on the parsed sizes agree with the
    comparison of [n] times the multiplier. *)
Theorem memory_size_compare_across_units :
  forall (n n' : N) (u u' : MemorySize.unit_suffix) (b b' : MemorySize.b_suffix),
    Z.of_N n * MemorySize.multiplier u <= MemorySize.LLONG_MAX ->
    Z.of_N n' * MemorySize.multiplier u' <= MemorySize.LLONG_MAX ->
    exists m m',
      MemorySize.of_string (MemorySize.numeral n ++ MemorySize.unit_text u
                              ++ MemorySize.b_text b) = Ok m
      /\ MemorySize.of_string (MemorySize.numeral n' ++ MemorySize.unit_text u'
                                 ++ MemorySize.b_text b') = Ok m'
      /\ MemorySize.eqb m m'
         = (Z.of_N n * MemorySize.multiplier u =? Z.of_N n' * MemorySize.multiplier u')
      /\ MemorySize.ltb m m'
         = (Z.of_N n * MemorySize.multiplier u <? Z.of_N n' * MemorySize.multiplier u')
      /\ MemorySize.leb m m'
         = (Z.of_N n * MemorySize.multiplier u <=? Z.of_N n' * MemorySize.multiplier u')
      /\ MemorySize.neqb m m' = negb (MemorySize.eqb m m')
      /\ MemorySize.gtb m m' = MemorySize.ltb m' m
      /\ MemorySize.geb m m' = MemorySize.leb m' m.
Proof.
  intros n n' u u' b b' Hfit Hfit'.
  eexists _, _. split; [apply parsed_bytes; exact Hfit|].
  split; [apply parsed_bytes; exact Hfit'|].
  unfold MemorySize.eqb, MemorySize.ltb, MemorySize.leb, MemorySize.neqb, MemorySize.gtb,
    MemorySize.geb. cbn [MemorySize.bytes].
  repeat split; try reflexivity.
  - apply Z.gtb_ltb.
  - apply Z.geb_leb.
Qed.

Lemma memory_size_compare_across_units_witness :
  exists m m',
    MemorySize.of_string "1024K" = Ok m /\ MemorySize.of_string "1MB" = Ok m'
    /\ MemorySize.eqb m m' = true /\ MemorySize.ltb m m' = false.
Proof.
  destruct (memory_size_compare_across_units 1024 1 (MemorySize.UnitK true)
              (MemorySize.UnitM true) MemorySize.NoB MemorySize.UpperB)
    as (m & m' & Hm & Hm' & Heq & Hlt & _);
    [vm_compute; discriminate|vm_compute; discriminate|].
  exists m, m'. split; [exact Hm|]. split; [exact Hm'|].
  split; [rewrite Heq|rewrite Hlt]; reflexivity.
Defined.

(** ** Subnets: what allocation costs, what is written and what is read back *)

Section SubnetMore.
Import Subnet.
Context {W : Type} `{World W}.

Lemma writes_app (t u : list Event) : writes (t ++ u) = (writes t ++ writes u)%list.
Proof.
  induction t as [|e t IH]; [reflexivity|].
  destruct e; simpl; rewrite ?IH; reflexivity.
Qed.

Lemma route_listings_app (t u : list Event) :
  route_listings (t ++ u) = (route_listings t + route_listings u)%nat.
Proof.
  induction t as [|e t IH]; [reflexivity|].
  destruct e; simpl; rewrite ?IH; reflexivity.
Qed.

Lemma pings_app (t u : list Event) : pings (t ++ u) = (pings t + pings u)%nat.
Proof.
  induction t as [|e t IH]; [reflexivity|].
  destruct e; simpl; rewrite ?IH; reflexivity.
Qed.

Lemma probes_write_nothing (t : list Event) : forallb is_probe t = true -> writes t = [].
Proof.
  induction t as [|e t IH]; [reflexivity|].
  cbn [forallb]. intros Hp. apply andb_true_iff in Hp as [He Ht].
  destruct e; try discriminate He; cbn [writes]; auto.
Qed.

(** The loop with [n] turns left, whatever the engine draws: only probes
    are made, at most [n] listings of the routes and [2 n] pings, and what
    comes out is a prefix [10.a.b] or the exhaustion error. *)
Lemma generate_loop_probes (n : nat) :
  forall st : St W Event,
  exists r st' events,
    generate_loop n st = (r, st')
    /\ trace st' = (trace st ++ events)%list
    /\ forallb is_probe events = true
    /\ (route_listings events <= n)%nat
    /\ (pings events <= 2 * n)%nat
    /\ match r with
       | Ok subnet => exists a b, subnet = prefix_10 a b
       | Throw e => e = subnet_exhausted
       end.
Proof.
  induction n as [|n IH]; intros st.
  - exists (Throw subnet_exhausted), st, []. cbn [generate_loop]. unfold throw.
    split; [reflexivity|]. split; [now rewrite app_nil_r|]. cbn. repeat split; lia.
  - cbn [generate_loop].
    unfold subnet_used_locally, can_reach_gateway, bind, ask, ret.
    destruct (dist_gen (world st)) as [a w1]. cbn [world trace].
    destruct (dist_gen w1) as [b w2]. cbn [world trace].
    destruct (run_cmd_for_output "ip" ip_route_show w2) as [routes w3]. cbn [world trace].
    assert (Hnext : forall (s : St W Event) (turn : list Event),
               trace s = (trace st ++ turn)%list ->
               forallb is_probe turn = true ->
               (route_listings turn <= 1)%nat -> (pings turn <= 2)%nat ->
               exists r st' events,
                 generate_loop n s = (r, st')
                 /\ trace st' = (trace st ++ events)%list
                 /\ forallb is_probe events = true
                 /\ (route_listings events <= Datatypes.S n)%nat
                 /\ (pings events <= 2 * Datatypes.S n)%nat
                 /\ match r with
                    | Ok subnet => exists a b, subnet = prefix_10 a b
                    | Throw e => e = subnet_exhausted
                    end).
    { intros s turn Hs Hprobe Hlist Hping.
      destruct (IH s) as (r & st' & events & Hrun & Htrace & Hp & Hl & Hg & Hr).
      exists r, st', (turn ++ events)%list.
      split; [exact Hrun|]. split; [rewrite Htrace, Hs, app_assoc; reflexivity|].
      rewrite forallb_app, Hprobe, Hp, route_listings_app, pings_app.
      repeat split; try lia. exact Hr. }
    destruct (Str.contains routes (prefix_10 a b)).
    { cbv beta iota.
      apply (Hnext _ [Draw a; Draw b; CmdOutput "ip" ip_route_show routes]);
        [cbn [trace]; rewrite <- !app_assoc; reflexivity|reflexivity|cbn; lia|cbn; lia]. }
    cbv beta iota. cbn [world trace].
    destruct (run_cmd_for_status "ping" (ping_args (prefix_10 a b ++ ".1")) w3) as [[] w4];
      cbn [world trace].
    { cbv beta iota.
      apply (Hnext _ [Draw a; Draw b; CmdOutput "ip" ip_route_show routes;
                      CmdStatus "ping" (ping_args (prefix_10 a b ++ ".1")) true]);
        [cbn [trace]; rewrite <- !app_assoc; reflexivity|reflexivity|cbn; lia|cbn; lia]. }
    cbv beta iota. cbn [world trace].
    destruct (run_cmd_for_status "ping" (ping_args (prefix_10 a b ++ ".254")) w4) as [[] w5];
      cbn [world trace].
    { cbv beta iota.
      apply (Hnext _ [Draw a; Draw b; CmdOutput "ip" ip_route_show routes;
                      CmdStatus "ping" (ping_args (prefix_10 a b ++ ".1")) false;
                      CmdStatus "ping" (ping_args (prefix_10 a b ++ ".254")) true]);
        [cbn [trace]; rewrite <- !app_assoc; reflexivity|reflexivity|cbn; lia|cbn; lia]. }
    cbv beta iota.
    eexists (Ok (prefix_10 a b)), _,
      [Draw a; Draw b; CmdOutput "ip" ip_route_show routes;
       CmdStatus "ping" (ping_args (prefix_10 a b ++ ".1")) false;
       CmdStatus "ping" (ping_args (prefix_10 a b ++ ".254")) false].
    split; [reflexivity|]. cbn [trace].
    split; [rewrite <- !app_assoc; reflexivity|].
    split; [reflexivity|]. split; [cbn; lia|]. split; [cbn; lia|eauto].
Qed.

Lemma generate_random_subnet_probes (st : St W Event) :
  exists r st' events,
    generate_random_subnet st = (r, st')
    /\ trace st' = (trace st ++ Seed :: events)%list
    /\ forallb is_probe events = true
    /\ (route_listings events <= 100)%nat
    /\ (pings events <= 200)%nat
    /\ writes events = []
    /\ match r with
       | Ok subnet => exists a b, subnet = prefix_10 a b
       | Throw e => e = subnet_exhausted
       end.
Proof.
  unfold generate_random_subnet, bind, tell.
  match goal with |- context [generate_loop 100 ?s] =>
    destruct (generate_loop_probes 100 s) as (r & st' & events & Hrun & Htrace & Hp & Hl & Hg & Hr)
  end.
  exists r, st', events. split; [exact Hrun|]. cbn [trace] in Htrace.
  split; [rewrite Htrace, <- app_assoc; reflexivity|].
  split; [exact Hp|]. split; [exact Hl|]. split; [exact Hg|].
  split; [apply probes_write_nothing; exact Hp|exact Hr].
Qed.

(** [get_subnet], branch by branch. *)
Lemma get_subnet_run (network_dir bridge_name : string) (st : St W Event) :
  let file := subnet_file network_dir in
  let routes := fst (run_cmd_for_output "ip" ip_route_show (world st)) in
  let w1 := snd (run_cmd_for_output "ip" ip_route_show (world st)) in
  let live := first_route_naming bridge_name (Str.split (ascii_of_nat 10) routes) in
  let asked := CmdOutput "ip" ip_route_show routes in
  let size := fst (file_size file (file_open file w1)) in
  let w2 := snd (file_size file (file_open file w1)) in
  let looked :=
    [asked;
     Log info "daemon" ("Unable to determine subnet for the " ++ bridge_name ++ " subnet");
     FileOpen file; FileSize file size] in
  get_subnet network_dir bridge_name st
  = if negb (Str.is_empty live) then (Ok live, mkSt w1 (trace st ++ [asked]))
    else if 0 <? size then
      (Ok (Str.trimmed (fst (file_readAll file w2))),
       mkSt (snd (file_readAll file w2))
            (trace st ++ looked ++ [FileReadAll file (fst (file_readAll file w2))]))
    else
      match generate_random_subnet (mkSt w2 (trace st ++ looked)) with
      | (Ok new_subnet, s3) =>
          (Ok new_subnet,
           mkSt (file_write file new_subnet (world s3))
                (trace s3 ++ [FileWrite file new_subnet]))
      | (Throw e, s3) => (Throw e, s3)
      end.
Proof.
  intros file routes w1 live asked size w2 looked.
  unfold get_subnet, virtual_switch_subnet, log, bind, ask, tell, ret.
  subst looked live asked size w2 routes w1 file.
  destruct (run_cmd_for_output "ip" ip_route_show (world st)) as [out w].
  cbn [fst snd world trace].
  destruct (first_route_naming bridge_name (Str.split (ascii_of_nat 10) out)) as [|c live];
    [|reflexivity].
  cbn [Str.is_empty negb world trace].
  destruct (file_size _ _) as [sz w']. cbn [fst snd world trace].
  destruct (0 <? sz).
  - cbv beta iota. cbn [world trace].
    destruct (file_readAll _ w') as [content w'']. cbn [fst snd world trace].
    rewrite <- !app_assoc. reflexivity.
  - cbv beta iota. cbn [world trace]. rewrite <- !app_assoc. simpl app.
    destruct (generate_random_subnet _) as [[new_subnet|e] s3]; reflexivity.
Qed.
End SubnetMore.

(** X7.  Whatever the engine draws and the host answers, one allocation
    seeds the engine once, lists the routes at most 100 times and pings at
    most 200 times; it writes no file and logs nothing, and it ends with a
    prefix [10.a.b] or with the "could not determine a subnet" error. *)
Theorem generate_random_subnet_cost :
  forall (W : Type) (HW : Subnet.World W) (st : St W Subnet.Event),
  exists r st' events,
    Subnet.generate_random_subnet st = (r, st')
    /\ trace st' = (trace st ++ Subnet.Seed :: events)%list
    /\ forallb Subnet.is_probe events = true
    /\ (Subnet.route_listings events <= 100)%nat
    /\ (Subnet.pings events <= 200)%nat
    /\ Subnet.writes events = []
    /\ match r with
       | Ok subnet => exists a b, subnet = Subnet.prefix_10 a b
       | Throw e => e = Subnet.subnet_exhausted
       end.
Proof.
  intros W HW st. exact (generate_random_subnet_probes st).
Qed.

(** X8.  [get_subnet] writes to a file at most once, as its last action
    and only after it found the subnet file empty and allocated: what it
    writes is the freshly allocated prefix [10.a.b], to
    [network_dir/multipass_subnet], and that prefix is what it returns. *)
Theorem get_subnet_writes_only_what_it_allocates :
  forall (W : Type) (HW : Subnet.World W) (network_dir bridge_name : string)
         (st : St W Subnet.Event),
  exists r st' events,
    Subnet.get_subnet network_dir bridge_name st = (r, st')
    /\ trace st' = (trace st ++ events)%list
    /\ (Subnet.writes events = []
        \/ exists subnet before size,
            r = Ok subnet
            /\ events = (before ++ [Subnet.FileWrite (Subnet.subnet_file network_dir) subnet])%list
            /\ Subnet.writes before = []
            /\ In (Subnet.FileSize (Subnet.subnet_file network_dir) size) before
            /\ size <= 0
            /\ exists a b, subnet = Subnet.prefix_10 a b).
Proof.
  intros W HW network_dir bridge_name st.
  rewrite get_subnet_run. cbv zeta.
  destruct (negb (Str.is_empty _)).
  - eexists _, _, [_]. split; [reflexivity|]. split; [reflexivity|]. left. reflexivity.
  - destruct (Z.ltb_spec 0 (fst (Subnet.file_size (Subnet.subnet_file network_dir)
                                   (Subnet.file_open (Subnet.subnet_file network_dir)
                                      (snd (Subnet.run_cmd_for_output "ip" Subnet.ip_route_show
                                              (world st))))))) as [Hpos|Hsize].
    + eexists _, _, _. split; [reflexivity|]. split; [reflexivity|]. left. reflexivity.
    + match goal with
      | |- context [Subnet.generate_random_subnet (mkSt ?w (trace st ++ ?lk)%list)] =>
          destruct (generate_random_subnet_probes (mkSt w (trace st ++ lk)%list))
            as (r & s3 & events & Hrun & Htrace & _ & _ & _ & Hw & Hr);
          rewrite Hrun; cbn [trace] in Htrace; destruct r as [subnet|e];
          [ exists (Ok subnet), (mkSt (Subnet.file_write (Subnet.subnet_file network_dir) subnet
                                         (world s3))
                                      (trace s3 ++ [Subnet.FileWrite
                                                      (Subnet.subnet_file network_dir) subnet])),
              (lk ++ Subnet.Seed :: events
                  ++ [Subnet.FileWrite (Subnet.subnet_file network_dir) subnet])%list;
            split; [reflexivity|]; cbn [trace];
            split; [rewrite Htrace, <- !app_assoc; reflexivity|];
            right; exists subnet, (lk ++ Subnet.Seed :: events)%list;
            eexists; split; [reflexivity|];
            split; [rewrite <- !app_assoc; reflexivity|];
            split; [rewrite writes_app; cbn [Subnet.writes app]; exact Hw|];
            split; [apply in_or_app; left; simpl; auto 6|];
            split; [exact Hsize|exact Hr]
          | exists (Throw e), s3, (lk ++ Subnet.Seed :: events)%list;
            split; [reflexivity|];
            split; [rewrite Htrace, <- !app_assoc; reflexivity|];
            left; rewrite writes_app; cbn [Subnet.writes app]; exact Hw ]
      end.
Qed.

(** X9.  [get_subnet] returns the empty string only out of the subnet
    file, when that file has a positive size and holds nothing but white
    space; a route or an allocation never gives it. *)
Theorem get_subnet_empty_only_from_blank_file :
  forall (W : Type) (HW : Subnet.World W) (network_dir bridge_name : string)
         (st st' : St W Subnet.Event),
    Subnet.get_subnet network_dir bridge_name st = (Ok "", st') ->
    exists events size data,
      trace st' = (trace st ++ events)%list
      /\ In (Subnet.FileSize (Subnet.subnet_file network_dir) size) events
      /\ 0 < size
      /\ In (Subnet.FileReadAll (Subnet.subnet_file network_dir) data) events
      /\ Str.trimmed data = "".
Proof.
  intros W HW network_dir bridge_name st st'.
  rewrite get_subnet_run. cbv zeta.
  destruct (Subnet.first_route_naming _ _) as [|c live]; [|discriminate].
  cbn [Str.is_empty negb].
  destruct (Z.ltb_spec 0 (fst (Subnet.file_size (Subnet.subnet_file network_dir)
                                 (Subnet.file_open (Subnet.subnet_file network_dir)
                                    (snd (Subnet.run_cmd_for_output "ip" Subnet.ip_route_show
                                            (world st))))))) as [Hpos|Hsize].
  - intros [= Hblank <-]. eexists _, _, _. cbn [trace].
    split; [reflexivity|]. split; [simpl; auto 6|]. split; [exact Hpos|].
    split; [simpl; auto 6|exact Hblank].
  - match goal with |- context [Subnet.generate_random_subnet ?s] =>
      destruct (generate_random_subnet_probes s)
        as (r & s3 & events & Hrun & _ & _ & _ & _ & _ & Hr)
    end.
    rewrite Hrun. destruct r as [subnet|e]; [|discriminate].
    destruct Hr as (a & b & ->). intros [= Habs _].
Qed.

Lemma get_subnet_empty_only_from_blank_file_witness :
  exists st' data,
    Subnet.get_subnet "/net" "mpqemubr0"
      (Doubles.net "" [] 5 [("/net/multipass_subnet", Str.nl)]) = (Ok "", st')
    /\ In (Subnet.FileReadAll "/net/multipass_subnet" data) (trace st')
    /\ Str.trimmed data = "".
Proof.
  destruct (Subnet.get_subnet "/net" "mpqemubr0"
              (Doubles.net "" [] 5 [("/net/multipass_subnet", Str.nl)])) as [r st'] eqn:Erun.
  assert (Hr : r = Ok "") by (vm_compute in Erun; congruence).
  subst r.
  destruct (get_subnet_empty_only_from_blank_file _ _ _ _ _ _ Erun)
    as (events & size & data & Htrace & _ & _ & Hin & Hblank).
  exists st', data. split; [reflexivity|]. split; [|exact Hblank].
  rewrite Htrace. apply in_or_app. right. exact Hin.
Defined.

Section FieldFacts.
(** A field without separator is split off whole. *)
Lemma split_field (sep : ascii) (field rest : string) :
  Str.contains field (String sep "") = false ->
  Str.split sep (field ++ String sep rest) = field :: Str.split sep rest.
Proof.
  induction field as [|c field IH]; intros Hfree.
  - cbn [append Str.split]. now rewrite Ascii.eqb_refl.
  - change (Str.contains (String c field) (String sep ""))
      with (Str.startsWith (String c field) (String sep "") || Str.contains field (String sep ""))
      in Hfree.
    apply orb_false_iff in Hfree as [Hhead Hfree].
    assert (Hc : Ascii.eqb c sep = false).
    { cbn [Str.startsWith] in Hhead. destruct (Ascii.eqb c sep); [|reflexivity].
      destruct field; discriminate Hhead. }
    cbn [append Str.split]. rewrite Hc, (IH Hfree). reflexivity.
Qed.

Lemma section_of_three_fields (sep : ascii) (a b c rest : string) :
  Str.contains a (String sep "") = false ->
  Str.contains b (String sep "") = false ->
  Str.contains c (String sep "") = false ->
  Str.section sep 0 2 (a ++ String sep (b ++ String sep (c ++ String sep rest)))
  = a ++ String sep (b ++ String sep c).
Proof.
  intros Ha Hb Hc. unfold Str.section. cbn [Nat.sub skipn].
  rewrite (split_field sep a _ Ha), (split_field sep b _ Hb), (split_field sep c _ Hc).
  reflexivity.
Qed.

Lemma number_no_space (z : Z) : Str.no_space (Str.number z) = true.
Proof.
  assert (Hu : forall d, Str.no_space (NilEmpty.string_of_uint d) = true)
    by (induction d; simpl; auto).
  assert (Hz : forall d, Str.no_space (NilZero.string_of_uint d) = true)
    by (intros d; unfold NilZero.string_of_uint; destruct d; try apply Hu; reflexivity).
  unfold Str.number. destruct z as [|p|p]; cbn [Z.to_int NilZero.string_of_int].
  - reflexivity.
  - apply Hz.
  - cbn [Str.no_space]. rewrite Hz. reflexivity.
Qed.

Lemma no_space_app (s t : string) :
  Str.no_space (s ++ t) = Str.no_space s && Str.no_space t.
Proof.
  induction s as [|c s IH]; [reflexivity|].
  cbn [append Str.no_space]. rewrite IH. apply andb_assoc.
Qed.

Lemma trim_left_spaces (ws s : string) :
  Str.all_space ws = true -> Str.trim_left (ws ++ s) = Str.trim_left s.
Proof.
  induction ws as [|c ws IH]; intros Hws; [reflexivity|].
  cbn [Str.all_space] in Hws. apply andb_true_iff in Hws as [Hc Hws].
  cbn [append Str.trim_left]. rewrite Hc. exact (IH Hws).
Qed.

Lemma trim_left_no_space (s : string) : Str.no_space s = true -> Str.trim_left s = s.
Proof.
  destruct s as [|c s]; [reflexivity|]. cbn [Str.no_space Str.trim_left].
  intros Hs. apply andb_true_iff in Hs as [Hc _].
  destruct (Str.isSpace c); [discriminate Hc|reflexivity].
Qed.

Lemma trim_right_spaces (ws : string) : Str.all_space ws = true -> Str.trim_right ws = "".
Proof.
  induction ws as [|c ws IH]; intros Hws; [reflexivity|].
  cbn [Str.all_space] in Hws. apply andb_true_iff in Hws as [Hc Hws].
  cbn [Str.trim_right]. rewrite (IH Hws), Hc. reflexivity.
Qed.

Lemma trim_right_word (s ws : string) :
  Str.no_space s = true -> Str.all_space ws = true -> Str.trim_right (s ++ ws) = s.
Proof.
  intros Hs Hws. induction s as [|c s IH]; [exact (trim_right_spaces ws Hws)|].
  cbn [Str.no_space] in Hs. apply andb_true_iff in Hs as [Hc Hs].
  cbn [append Str.trim_right]. rewrite (IH Hs).
  destruct s; [|reflexivity]. destruct (Str.isSpace c); [discriminate Hc|reflexivity].
Qed.

(** Trimming takes the white space around a word off and leaves the word. *)
Lemma trimmed_word (before s after : string) :
  Str.all_space before = true -> Str.no_space s = true -> Str.all_space after = true ->
  Str.trimmed (before ++ s ++ after) = s.
Proof.
  intros Hb Hs Ha. unfold Str.trimmed. rewrite (trim_left_spaces _ _ Hb).
  destruct s as [|c s].
  - cbn [append].
    assert (Hempty : Str.trim_left after = "").
    { clear -Ha. induction after as [|c after IH]; [reflexivity|].
      cbn [Str.all_space] in Ha. apply andb_true_iff in Ha as [Hc Ha].
      cbn [Str.trim_left]. rewrite Hc. exact (IH Ha). }
    rewrite Hempty. reflexivity.
  - assert (Hhead : Str.trim_left (String c s ++ after) = String c s ++ after).
    { cbn [Str.no_space] in Hs. apply andb_true_iff in Hs as [Hc _].
      cbn [append Str.trim_left]. destruct (Str.isSpace c); [discriminate Hc|reflexivity]. }
    rewrite Hhead. apply trim_right_word; assumption.
Qed.

Lemma prefix_10_no_space (a b : Z) : Str.no_space (Subnet.prefix_10 a b) = true.
Proof.
  unfold Subnet.prefix_10.
  change ("10." ++ Str.number a ++ "." ++ Str.number b)
    with ("10." ++ (Str.number a ++ ("." ++ Str.number b))).
  rewrite !no_space_app, !number_no_space. reflexivity.
Qed.
End FieldFacts.

(** X10.  A route of the usual shape gives its first three octets: when
    the first line of the routing table that contains [bridge_name] reads
    [a.b.c.] followed by anything, with no dot inside [a], [b] and [c],
    [get_subnet] returns [a.b.c], whatever the subnet file holds. *)
Theorem get_subnet_takes_route_prefix :
  forall (W : Type) (HW : Subnet.World W) (network_dir bridge_name : string)
         (st : St W Subnet.Event) (before after : list string) (a b c rest : string),
    let line := a ++ "." ++ b ++ "." ++ c ++ "." ++ rest in
    Str.split (ascii_of_nat 10)
      (fst (Subnet.run_cmd_for_output "ip" Subnet.ip_route_show (world st)))
    = (before ++ line :: after)%list ->
    Forall (fun l => Str.contains l bridge_name = false) before ->
    Str.contains line bridge_name = true ->
    Str.contains a "." = false -> Str.contains b "." = false -> Str.contains c "." = false ->
    fst (Subnet.get_subnet network_dir bridge_name st) = Ok (a ++ "." ++ b ++ "." ++ c)
    /\ Subnet.writes (trace (snd (Subnet.get_subnet network_dir bridge_name st)))
       = Subnet.writes (trace st).
Proof.
  intros W HW network_dir bridge_name st before after a b c rest line
         Hsplit Hbefore Hline Ha Hb Hc.
  subst line. rewrite get_subnet_run. cbv zeta.
  rewrite Hsplit, (first_route_naming_found _ _ _ _ Hbefore Hline).
  change (a ++ "." ++ b ++ "." ++ c ++ "." ++ rest)
    with (a ++ String "." (b ++ String "." (c ++ String "." rest))).
  rewrite (section_of_three_fields "." a b c rest Ha Hb Hc).
  assert (Hne : Str.is_empty (a ++ String "." (b ++ String "." c)) = false)
    by (destruct a; reflexivity).
  rewrite Hne. cbn [negb fst snd trace]. split; [reflexivity|].
  rewrite writes_app. cbn [Subnet.writes]. apply app_nil_r.
Qed.

Lemma get_subnet_takes_route_prefix_witness :
  fst (Subnet.get_subnet "/net" "mpqemubr0"
         (Doubles.net ("default via 192.168.1.1 dev eth0" ++ Str.nl
                       ++ "10.5.0.0/24 dev mpqemubr0 proto kernel" ++ Str.nl)
            [] 5 [("/net/multipass_subnet", "10.1.2")]))
  = Ok "10.5.0".
Proof.
  apply (get_subnet_takes_route_prefix Doubles.FakeNet Doubles.fake_net "/net" "mpqemubr0"
           (Doubles.net ("default via 192.168.1.1 dev eth0" ++ Str.nl
                         ++ "10.5.0.0/24 dev mpqemubr0 proto kernel" ++ Str.nl)
              [] 5 [("/net/multipass_subnet", "10.1.2")])
           ["default via 192.168.1.1 dev eth0"] [""] "10" "5" "0"
           "0/24 dev mpqemubr0 proto kernel");
    try reflexivity.
  constructor; [reflexivity|constructor].
Defined.

(** X11.  What the allocator persists is read back as it was: when no
    route names the bridge and the subnet file, of positive size, holds a
    prefix [10.a.b] with any white space before and after it, [get_subnet]
    returns exactly that prefix, draws nothing and writes nothing. *)
Theorem get_subnet_reads_back_prefix :
  forall (W : Type) (HW : Subnet.World W) (network_dir bridge_name : string)
         (st : St W Subnet.Event) (a b : Z) (before after : string),
    let file := Subnet.subnet_file network_dir in
    let routes := fst (Subnet.run_cmd_for_output "ip" Subnet.ip_route_show (world st)) in
    let w1 := snd (Subnet.run_cmd_for_output "ip" Subnet.ip_route_show (world st)) in
    let w2 := snd (Subnet.file_size file (Subnet.file_open file w1)) in
    Subnet.first_route_naming bridge_name (Str.split (ascii_of_nat 10) routes) = "" ->
    0 < fst (Subnet.file_size file (Subnet.file_open file w1)) ->
    fst (Subnet.file_readAll file w2) = before ++ Subnet.prefix_10 a b ++ after ->
    Str.all_space before = true -> Str.all_space after = true ->
    exists st' events,
      Subnet.get_subnet network_dir bridge_name st = (Ok (Subnet.prefix_10 a b), st')
      /\ trace st' = (trace st ++ events)%list
      /\ Subnet.writes events = []
      /\ forallb (fun e => match e with Subnet.Draw _ | Subnet.Seed => false | _ => true end)
                 events = true.
Proof.
  intros W HW network_dir bridge_name st a b before after file routes w1 w2
         Hlive Hsize Hdata Hbefore Hafter.
  rewrite get_subnet_run. cbv zeta. fold file. fold routes. fold w1.
  rewrite Hlive. cbn [Str.is_empty negb].
  apply Z.ltb_lt in Hsize. rewrite Hsize. fold w2. rewrite Hdata.
  rewrite (trimmed_word _ _ _ Hbefore (prefix_10_no_space a b) Hafter).
  eexists _, _. split; [reflexivity|]. cbn [trace].
  split; [reflexivity|]. split; reflexivity.
Qed.

Lemma get_subnet_reads_back_prefix_witness :
  exists st',
    Subnet.get_subnet "/net" "mpqemubr0"
      (Doubles.net "10.5.0.0/24 dev eth0" [] 5
         [("/net/multipass_subnet", Subnet.prefix_10 10 42 ++ Str.nl)])
    = (Ok "10.10.42", st').
Proof.
  destruct (get_subnet_reads_back_prefix Doubles.FakeNet Doubles.fake_net "/net" "mpqemubr0"
              (Doubles.net "10.5.0.0/24 dev eth0" [] 5
                 [("/net/multipass_subnet", Subnet.prefix_10 10 42 ++ Str.nl)])
              10 42 "" Str.nl)
    as (st' & events & Hrun & _); try reflexivity.
  exists st'. exact Hrun.
Defined.

(** ** Bridges: every way [create_bridge_with] can end *)

(** The end of a branch of [create_bridge_with]: the run is known, the
    events are read off its trace. *)
Ltac bridge_branch_end :=
  eexists _, _, _; split; [reflexivity|]; cbn [snd trace];
  split; [rewrite <- !app_assoc; simpl app; reflexivity|].

Ltac run_bridge := unfold Bridge.null_path; step_bridge.

Ltac find_call :=
  simpl; repeat first [ left; reflexivity | right ].

(** X12.  However the bus answers, [create_bridge_with] either returns or
    throws a [CreateBridgeException] tagged "Could not create bridge",
    never one tagged as a rollback failure.  When it returns, the calls
    made were the two [AddConnection] on the settings object and
    [ActivateConnection] on the root object, in that order, nothing was
    deleted and nothing was logged as an error.  Whatever was sent [Delete]
    is an object path that one of the [AddConnection] calls of this run
    had returned. *)
Theorem create_bridge_outcomes :
  forall (W : Type) (HW : Bridge.World W) (interface : string) (st : St W Bridge.Event),
  exists r st' events,
    Bridge.create_bridge_with interface st = (r, st')
    /\ trace st' = (trace st ++ events)%list
    /\ (r = Ok tt
        \/ exists detail err, r = Throw (Bridge.mkCreateBridgeException detail err false))
    /\ (r = Ok tt ->
        Bridge.called events
        = [(Bridge.nm_settings_obj, "AddConnection"); (Bridge.nm_settings_obj, "AddConnection");
           (Bridge.nm_root_obj, "ActivateConnection")]
        /\ Bridge.deleted events = []
        /\ Bridge.logged_errors events = [])
    /\ (forall p, In p (Bridge.deleted events) ->
        exists args reply,
          In (Bridge.Call (Bridge.mkInterface Bridge.nm_bus_name Bridge.nm_settings_obj
                             Bridge.nm_settings_ifc)
                "AddConnection" args reply) events
          /\ Bridge.reply_object_path reply = inr (Bridge.mkPath (Some p))).
Proof.
  intros W HW interface st.
  unfold Bridge.create_bridge_with, Bridge.make_connection_settings.
  run_bridge.
  destruct (Bridge.is_connected (world st)) as [[] w1]; run_bridge.
  2:{ destruct (Bridge.last_error w1) as [e w2]. run_bridge. bridge_branch_end.
      split; [right; eauto|]. split; [discriminate|]. intros p []. }
  destruct (Bridge.is_valid _ _) as [[] w2]; run_bridge.
  2:{ destruct (Bridge.interface_last_error _ w2) as [e w3]. run_bridge. bridge_branch_end.
      split; [right; eauto|]. split; [discriminate|]. intros p []. }
  destruct (Bridge.is_valid _ _) as [[] w3]; run_bridge.
  2:{ destruct (Bridge.interface_last_error _ w3) as [e w4]. run_bridge. bridge_branch_end.
      split; [right; eauto|]. split; [discriminate|]. intros p []. }
  destruct (Bridge.call _ "AddConnection" _ w3) as [m1 w4]. run_bridge.
  destruct (Bridge.reply_object_path m1) as [e1|[parent]] eqn:Eparent; run_bridge.
  { bridge_branch_end.
    split; [right; eauto|]. split; [discriminate|]. intros p []. }
  destruct (Bridge.call _ "AddConnection" _ w4) as [m2 w5]. run_bridge.
  destruct (Bridge.reply_object_path m2) as [e2|[child]] eqn:Echild; run_bridge.
  { (* the second [AddConnection] fails: the parent, if any, is deleted *)
    destruct parent as [parent|]; run_bridge.
    - destruct (Bridge.call _ "Delete" _ _) as [d1 w6]. run_bridge.
      destruct (Bridge.reply_void d1) as [err|[]]; run_bridge; bridge_branch_end;
        (split; [right; eauto|]); (split; [discriminate|]);
        intros p [<-|[]]; eexists _, _; (split; [|exact Eparent]); find_call.
    - bridge_branch_end.
      split; [right; eauto|]. split; [discriminate|]. intros p []. }
  destruct (Bridge.call _ "ActivateConnection" _ w5) as [m3 w6]. run_bridge.
  destruct (Bridge.reply_object_path m3) as [e3|active]; run_bridge.
  - (* activation fails: the child, if any, then the parent, if any *)
    destruct child as [child|]; run_bridge.
    + destruct (Bridge.call _ "Delete" _ _) as [d1 w7]. run_bridge.
      destruct (Bridge.reply_void d1) as [err|[]]; run_bridge.
      * bridge_branch_end.
        split; [right; eauto|]. split; [discriminate|].
        intros p [<-|[]]; eexists _, _; (split; [|exact Echild]); find_call.
      * destruct parent as [parent|]; run_bridge.
        -- destruct (Bridge.call _ "Delete" _ _) as [d2 w8]. run_bridge.
           destruct (Bridge.reply_void d2) as [err|[]]; run_bridge; bridge_branch_end;
             (split; [right; eauto|]); (split; [discriminate|]);
             intros p [<-|[<-|[]]]; eexists _, _;
             first [ split; [|exact Echild]; find_call; fail
                   | split; [|exact Eparent]; find_call ].
        -- bridge_branch_end.
           split; [right; eauto|]. split; [discriminate|].
           intros p [<-|[]]; eexists _, _; (split; [|exact Echild]); find_call.
    + destruct parent as [parent|]; run_bridge.
      * destruct (Bridge.call _ "Delete" _ _) as [d1 w7]. run_bridge.
        destruct (Bridge.reply_void d1) as [err|[]]; run_bridge; bridge_branch_end;
          (split; [right; eauto|]); (split; [discriminate|]);
          intros p [<-|[]]; eexists _, _; (split; [|exact Eparent]); find_call.
      * bridge_branch_end.
        split; [right; eauto|]. split; [discriminate|]. intros p [].
  - (* success: the guard is dismissed *)
    bridge_branch_end.
    split; [left; reflexivity|]. split; [intros _; repeat split; reflexivity|]. intros p [].
Qed.





(** X15.  When the second [AddConnection] fails after the first returned a
    non-null path, the rollback sends [Delete] to that parent connection
    and to nothing else; the exception carries the error of the failed
    [AddConnection], whether or not the [Delete] went through, and a
    [Delete] that fails is logged under "rollback bridge". *)
Theorem create_bridge_second_add_fails :
  forall (W : Type) (HW : Bridge.World W) (interface : string) (st : St W Bridge.Event)
         (w1 w2 w3 w4 w5 w6 : W) (m1 m2 d : Bridge.QDBusMessage) (parent : string)
         (e : Bridge.QDBusError),
    let nm_root := Bridge.mkInterface Bridge.nm_bus_name Bridge.nm_root_obj Bridge.nm_root_ifc in
    let nm_settings :=
      Bridge.mkInterface Bridge.nm_bus_name Bridge.nm_settings_obj Bridge.nm_settings_ifc in
    let parent_name := Str.left Bridge.max_bridge_name_len (Bridge.base_name ++ interface) in
    let settings :=
      Bridge.make_connection_settings parent_name (parent_name ++ "-child") interface in
    let parent_connection :=
      Bridge.mkInterface Bridge.nm_bus_name parent Bridge.nm_connection_ifc in
    Bridge.is_connected (world st) = (true, w1) ->
    Bridge.is_valid nm_root (Bridge.get_interface nm_root w1) = (true, w2) ->
    Bridge.is_valid nm_settings (Bridge.get_interface nm_settings w2) = (true, w3) ->
    Bridge.call nm_settings "AddConnection" [Bridge.ArgSettings (fst settings)] w3 = (m1, w4) ->
    Bridge.reply_object_path m1 = inr (Bridge.mkPath (Some parent)) ->
    Bridge.call nm_settings "AddConnection" [Bridge.ArgSettings (snd settings)] w4 = (m2, w5) ->
    Bridge.reply_object_path m2 = inl e ->
    Bridge.call parent_connection "Delete" [] (Bridge.get_interface parent_connection w5)
    = (d, w6) ->
    exists st' events,
      Bridge.create_bridge_with interface st
      = (Throw (Bridge.mkCreateBridgeException
                  (Bridge.failed_call_detail nm_settings "AddConnection") e false), st')
      /\ trace st' = (trace st ++ events)%list
      /\ Bridge.called events
         = [(Bridge.nm_settings_obj, "AddConnection"); (Bridge.nm_settings_obj, "AddConnection");
            (parent, "Delete")]
      /\ Bridge.logged_errors events
         = match Bridge.reply_void d with
           | inl err =>
               [(Bridge.log_category_rollback,
                 Bridge.create_bridge_what
                   (Bridge.failed_call_detail parent_connection "Delete") err true)]
           | inr _ => []
           end.
Proof.
  intros W HW interface st w1 w2 w3 w4 w5 w6 m1 m2 d parent e
         nm_root nm_settings parent_name settings parent_connection
         Hconn Hroot Hsettings Hadd1 Hp Hadd2 Hc Hdel.
  subst nm_root nm_settings parent_name settings parent_connection.
  unfold Bridge.create_bridge_with, Bridge.make_connection_settings in *.
  cbn [fst snd] in *.
  run_bridge. rewrite Hconn.
  run_bridge. rewrite Hroot.
  run_bridge. rewrite Hsettings.
  run_bridge. rewrite Hadd1. run_bridge. rewrite Hp.
  run_bridge. rewrite Hadd2. run_bridge. rewrite Hc.
  run_bridge. rewrite Hdel. run_bridge.
  destruct (Bridge.reply_void d) as [err|[]]; run_bridge;
    eexists _, _; (split; [reflexivity|]); cbn [snd trace];
    (split; [rewrite <- !app_assoc; simpl app; reflexivity|]);
    split; reflexivity.
Qed.

Lemma create_bridge_second_add_fails_witness :
  exists msg st',
    Bridge.create_bridge_with "eth0"
      (mkSt (Doubles.mkFakeBus true (Bridge.mkError Bridge.NoError "")
               [Doubles.object_path_reply "/parent";
                Bridge.ErrorMessage (Bridge.mkError Bridge.Failed "no such device");
                Bridge.ReplyMessage []]) [])
    = (Throw (CreateBridgeException msg), st')
    /\ Str.HasSubstr "no such device" msg.
Proof.
  edestruct (create_bridge_second_add_fails Doubles.FakeBus Doubles.fake_bus "eth0"
               (mkSt (Doubles.mkFakeBus true (Bridge.mkError Bridge.NoError "")
                        [Doubles.object_path_reply "/parent";
                         Bridge.ErrorMessage (Bridge.mkError Bridge.Failed "no such device");
                         Bridge.ReplyMessage []]) []))
    as (st' & events & Hrun & _); try reflexivity.
  eexists _, st'. split; [exact Hrun|].
  unfold Bridge.create_bridge_what. has_substr.
Defined.

(** X16.  An interface that is not valid ends the attempt before any method
    is called: for the root interface, after it alone was resolved; for
    the settings interface, after the root was found valid.  The exception
    says "Could not create bridge" and "Could not reach remote D-Bus
    object" and carries the interface's own last error. *)
Theorem create_bridge_interface_unreachable :
  forall (W : Type) (HW : Bridge.World W) (interface : string) (st : St W Bridge.Event)
         (w1 w2 w3 : W) (e : Bridge.QDBusError),
    let nm_root := Bridge.mkInterface Bridge.nm_bus_name Bridge.nm_root_obj Bridge.nm_root_ifc in
    let nm_settings :=
      Bridge.mkInterface Bridge.nm_bus_name Bridge.nm_settings_obj Bridge.nm_settings_ifc in
    let unreachable :=
      Throw (Bridge.mkCreateBridgeException "Could not reach remote D-Bus object" e false) in
    Bridge.is_connected (world st) = (true, w1) ->
    (Bridge.is_valid nm_root (Bridge.get_interface nm_root w1) = (false, w2) ->
     Bridge.interface_last_error nm_root w2 = (e, w3) ->
     Bridge.create_bridge_with interface st
     = (unreachable,
        mkSt w3 (trace st ++ [Bridge.IsConnected true; Bridge.GetInterface nm_root;
                              Bridge.IsValid nm_root false;
                              Bridge.InterfaceLastError nm_root e])))
    /\ (forall w4 : W,
        Bridge.is_valid nm_root (Bridge.get_interface nm_root w1) = (true, w2) ->
        Bridge.is_valid nm_settings (Bridge.get_interface nm_settings w2) = (false, w3) ->
        Bridge.interface_last_error nm_settings w3 = (e, w4) ->
        Bridge.create_bridge_with interface st
        = (unreachable,
           mkSt w4 (trace st ++ [Bridge.IsConnected true; Bridge.GetInterface nm_root;
                                 Bridge.IsValid nm_root true;
                                 Bridge.GetInterface nm_settings;
                                 Bridge.IsValid nm_settings false;
                                 Bridge.InterfaceLastError nm_settings e])))
    /\ Str.HasSubstr "Could not create bridge"
         (Bridge.create_bridge_what "Could not reach remote D-Bus object" e false)
    /\ Str.HasSubstr "Could not reach remote D-Bus object"
         (Bridge.create_bridge_what "Could not reach remote D-Bus object" e false).
Proof.
  intros W HW interface st w1 w2 w3 e nm_root nm_settings unreachable Hconn.
  subst nm_root nm_settings unreachable.
  split; [|split; [|split]].
  - intros Hroot Herr. unfold Bridge.create_bridge_with.
    run_bridge. rewrite Hconn. run_bridge. rewrite Hroot. run_bridge. rewrite Herr.
    run_bridge. rewrite <- !app_assoc. reflexivity.
  - intros w4 Hroot Hsettings Herr. unfold Bridge.create_bridge_with.
    run_bridge. rewrite Hconn. run_bridge. rewrite Hroot. run_bridge. rewrite Hsettings.
    run_bridge. rewrite Herr. run_bridge. rewrite <- !app_assoc. reflexivity.
  - unfold Bridge.create_bridge_what. apply HasSubstr_head.
  - unfold Bridge.create_bridge_what. apply HasSubstr_skip. apply HasSubstr_skip.
    apply HasSubstr_head.
Qed.

Lemma create_bridge_interface_unreachable_witness :
  exists msg st',
    Bridge.create_bridge_with "whatever"
      (mkSt (Doubles.mkPickyBus [true; false]
               (Bridge.mkError Bridge.InvalidInterface "DBus error msg")) [])
    = (Throw (CreateBridgeException msg), st')
    /\ Bridge.called (trace st') = []
    /\ Str.HasSubstr "Could not reach remote D-Bus object" msg.
Proof.
  edestruct (create_bridge_interface_unreachable Doubles.PickyBus Doubles.picky_bus "whatever"
               (mkSt (Doubles.mkPickyBus [true; false]
                        (Bridge.mkError Bridge.InvalidInterface "DBus error msg")) []))
    as (_ & Hsettings & _ & Hmsg); [reflexivity|].
  eexists _, _. split; [apply Hsettings; reflexivity|].
  split; [reflexivity|exact Hmsg].
Defined.

Lemma create_bridge_outcomes_witness :
  exists st' events,
    Bridge.create_bridge_with "eth0" Doubles.bus_activation_fails
    = (Throw (Bridge.mkCreateBridgeException
                (Bridge.failed_call_detail
                   (Bridge.mkInterface Bridge.nm_bus_name Bridge.nm_root_obj Bridge.nm_root_ifc)
                   "ActivateConnection")
                Doubles.activation_refused false), st')
    /\ trace st' = events
    /\ forall p, In p (Bridge.deleted events) ->
                 exists args reply,
                   In (Bridge.Call (Bridge.mkInterface Bridge.nm_bus_name Bridge.nm_settings_obj
                                      Bridge.nm_settings_ifc)
                         "AddConnection" args reply) events
                   /\ Bridge.reply_object_path reply = inr (Bridge.mkPath (Some p)).
Proof.
  destruct (create_bridge_outcomes Doubles.FakeBus Doubles.fake_bus "eth0"
              Doubles.bus_activation_fails)
    as (r & st' & events & Hrun & Htrace & _ & _ & Hdeleted).
  exists st', events.
  assert (Hr : r = Throw (Bridge.mkCreateBridgeException
                            (Bridge.failed_call_detail
                               (Bridge.mkInterface Bridge.nm_bus_name Bridge.nm_root_obj
                                  Bridge.nm_root_ifc) "ActivateConnection")
                            Doubles.activation_refused false))
    by (vm_compute in Hrun; injection Hrun as <- _; reflexivity).
  subst r. split; [exact Hrun|]. split; [exact Htrace|exact Hdeleted].
Defined.

Section NameFacts.
Lemma left_length (n : nat) (s : string) :
  String.length (Str.left n s) = Nat.min n (String.length s).
Proof.
  revert s. induction n as [|n IH]; intros s; [reflexivity|].
  destruct s as [|c s]; [reflexivity|]. cbn [Str.left String.length Nat.min].
  now rewrite IH.
Qed.

Lemma left_all (n : nat) (s : string) : (String.length s <= n)%nat -> Str.left n s = s.
Proof.
  revert s. induction n as [|n IH]; intros s Hlen.
  - destruct s; [reflexivity|simpl in Hlen; lia].
  - destruct s as [|c s]; [reflexivity|]. cbn [Str.left]. rewrite IH; [reflexivity|].
    simpl in Hlen. lia.
Qed.

(** Cutting keeps a string within ASCII and free of NUL. *)
Lemma left_is_ascii (n : nat) (s : string) :
  Str.is_ascii s = true -> Str.is_ascii (Str.left n s) = true.
Proof.
  revert s. induction n as [|n IH]; intros s Hs; [reflexivity|].
  destruct s as [|c s]; [reflexivity|]. cbn [Str.left Str.is_ascii] in *.
  apply andb_true_iff in Hs. destruct Hs as [Hc Hs]. now rewrite Hc, IH.
Qed.

Lemma left_no_nul (n : nat) (s : string) :
  Str.no_nul s = true -> Str.no_nul (Str.left n s) = true.
Proof.
  revert s. induction n as [|n IH]; intros s Hs; [reflexivity|].
  destruct s as [|c s]; [reflexivity|]. cbn [Str.left Str.no_nul] in *.
  apply andb_true_iff in Hs. destruct Hs as [Hc Hs]. now rewrite Hc, IH.
Qed.
End NameFacts.

(** X17.  For an interface name of ASCII characters without NUL, the name
    given to the bridge never has more than 15 characters, is again
    ASCII without NUL, and always begins with "br-": it is "br-" followed by the interface name when that
    has at most 12 characters, and that text cut after the 15th character
    otherwise.  In the settings handed to [AddConnection] this name is the
    parent's id, the bridge's interface-name and the child's master.  The
    two hypotheses keep the statement to the names on which the bytes
    counted by [Str.left] are the characters counted by [QString::left]
    (see [Str.is_ascii]) and [interface.c_str()] is the whole name. *)
Theorem bridge_name_fits :
  forall interface : string,
    Str.is_ascii interface = true ->
    Str.no_nul interface = true ->
    let parent_name := Str.left Bridge.max_bridge_name_len (Bridge.base_name ++ interface) in
    let settings :=
      Bridge.make_connection_settings parent_name (parent_name ++ "-child") interface in
    (String.length parent_name <= 15)%nat
    /\ Str.is_ascii parent_name = true
    /\ Str.no_nul parent_name = true
    /\ Str.startsWith parent_name "br-" = true
    /\ ((String.length interface <= 12)%nat -> parent_name = "br-" ++ interface)
    /\ ((12 < String.length interface)%nat -> String.length parent_name = 15%nat)
    /\ exists connection bridge child_connection,
        settings = ([("connection", connection); ("bridge", bridge)],
                    [("connection", child_connection)])
        /\ In ("id", Bridge.VString parent_name) connection
        /\ In ("interface-name", Bridge.VString parent_name) bridge
        /\ In ("master", Bridge.VString parent_name) child_connection
        /\ In ("interface-name", Bridge.VString interface) child_connection.
Proof.
  intros interface Hascii Hnul parent_name settings. subst settings parent_name.
  unfold Bridge.max_bridge_name_len, Bridge.base_name.
  split; [rewrite left_length; lia|].
  split; [apply left_is_ascii; exact Hascii|].
  split; [apply left_no_nul; exact Hnul|].
  split; [destruct interface; reflexivity|].
  split; [intros Hlen; apply left_all; simpl; lia|].
  split; [intros Hlen; rewrite left_length;
          change (String.length ("br-" ++ interface)) with (3 + String.length interface)%nat;
          lia|].
  unfold Bridge.make_connection_settings. eexists _, _, _.
  split; [reflexivity|]. simpl. auto 10.
Qed.

Lemma bridge_name_fits_witness :
  Str.is_ascii "enp0s31f6abcdefgh" = true
  /\ Str.no_nul "enp0s31f6abcdefgh" = true
  /\ Str.left Bridge.max_bridge_name_len (Bridge.base_name ++ "enp0s31f6abcdefgh")
     = "br-enp0s31f6abc"
  /\ String.length (Str.left Bridge.max_bridge_name_len (Bridge.base_name ++ "enp0s31f6abcdefgh"))
     = 15%nat.
Proof.
  assert (Hascii : Str.is_ascii "enp0s31f6abcdefgh" = true) by reflexivity.
  assert (Hnul : Str.no_nul "enp0s31f6abcdefgh" = true) by reflexivity.
  split; [exact Hascii|]. split; [exact Hnul|]. split; [reflexivity|].
  apply (bridge_name_fits "enp0s31f6abcdefgh" Hascii Hnul). simpl. lia.
Defined.

(** X18.  The text of a [CreateBridgeException]: it begins with "Could not
    rollback bridge" when built for a rollback and with "Could not create
    bridge" otherwise, goes on with the detail, and ends with the message
    of the D-Bus error when that error is valid and with "unknown cause"
    when it is not. *)
Theorem create_bridge_exception_text :
  forall (detail : string) (e : Bridge.QDBusError) (rollback : bool),
    let text := Bridge.create_bridge_what detail e rollback in
    Str.startsWith text "Could not rollback bridge. " = rollback
    /\ Str.startsWith text "Could not create bridge. " = negb rollback
    /\ Str.HasSubstr detail text
    /\ (Bridge.isValid e = true -> exists before, text = before ++ ": " ++ Bridge.message e)
    /\ (Bridge.isValid e = false -> exists before, text = before ++ ": unknown cause").
Proof.
  intros detail e rollback text. subst text. unfold Bridge.create_bridge_what.
  split; [destruct rollback; [apply startsWith_prefix; eexists; reflexivity|reflexivity]|].
  split; [destruct rollback; [reflexivity|apply startsWith_prefix; eexists; reflexivity]|].
  split; [has_substr|].
  split; intros Hvalid; rewrite Hvalid;
    exists ((if rollback then "Could not rollback bridge" else "Could not create bridge")
              ++ ". " ++ detail);
    now rewrite !append_assoc.
Qed.

Lemma create_bridge_exception_text_witness :
  Bridge.isValid (Bridge.mkError Bridge.NoError "") = false
  /\ exists before,
      Bridge.create_bridge_what "detail" (Bridge.mkError Bridge.NoError "") false
      = before ++ ": unknown cause".
Proof.
  split; [reflexivity|].
  apply (create_bridge_exception_text "detail" (Bridge.mkError Bridge.NoError "") false).
  reflexivity.
Defined.

(** ** Image tool errors, the KVM helper and the architecture table *)

(** X19.  Every error of the two image operations is a [runtime_error]
    that names the stage that failed and says "qemu-img failed": a resize
    fails with "Cannot resize instance image", a conversion with "Cannot
    read image format" when the tool was run once and with "Failed to
    convert image format" when it was run twice. *)
Theorem image_errors_name_their_stage :
  forall (W : Type) (HW : Image.World W) (image_path : string) (st : St W Image.Event),
    (forall disk_space r st',
        Image.resize_instance_image disk_space image_path st = (r, st') ->
        r = Ok tt
        \/ exists rest,
            r = Throw (runtime_error ("Cannot resize instance image: qemu-img failed (" ++ rest)))
    /\ (forall r st',
           Image.convert_to_qcow_if_necessary image_path st = (r, st') ->
           match r with
           | Ok p => p = image_path \/ p = image_path ++ ".qcow2"
           | Throw e =>
               exists events rest,
                 trace st' = (trace st ++ events)%list
                 /\ ((e = runtime_error ("Cannot read image format: qemu-img failed (" ++ rest)
                      /\ List.length (Image.invocations events) = 1%nat)
                     \/ (e = runtime_error
                               ("Failed to convert image format: qemu-img failed (" ++ rest)
                         /\ List.length (Image.invocations events) = 2%nat))
           end).
Proof.
  intros W HW image_path st. split.
  - intros disk_space r st'.
    unfold Image.resize_instance_image, Image.create_process, Image.qemuimg_failed,
      bind, ask, tell, ret, throw. cbn [world trace].
    destruct (Image.execute _ _ (world st)) as [state w1]. cbn [world trace].
    destruct (Image.completed_successfully state); cbv beta iota; cbn [negb world trace].
    + intros [= <- _]. left. reflexivity.
    + destruct (Image.read_all_standard_error _ w1) as [err w2].
      intros [= <- _]. right. eexists.
      simpl. reflexivity.
  - intros r st'.
    unfold Image.convert_to_qcow_if_necessary, Image.create_process, Image.qemuimg_failed,
      bind, ask, tell, ret, throw. cbn [world trace].
    destruct (Image.execute _ None (world st)) as [info_state w1]. cbn [world trace].
    destruct (Image.completed_successfully info_state); cbv beta iota; cbn [negb world trace].
    + destruct (Image.read_all_standard_output _ w1) as [output w2]. cbn [world trace].
      destruct (String.eqb _ "raw"); cbv beta iota; cbn [world trace].
      * destruct (Image.execute _ _ w2) as [convert_state w3]. cbn [world trace].
        destruct (Image.completed_successfully convert_state);
          cbv beta iota; cbn [negb world trace].
        -- intros [= <- _]. right. reflexivity.
        -- destruct (Image.read_all_standard_error _ w3) as [err w4].
           intros [= <- <-]. cbn [trace]. eexists _, _.
           split; [rewrite <- !app_assoc; simpl app; reflexivity|].
           right. split; [|reflexivity].
           simpl. reflexivity.
      * intros [= <- _]. left. reflexivity.
    + destruct (Image.read_all_standard_error _ w1) as [err w2].
      intros [= <- <-]. cbn [trace]. eexists _, _.
      split; [rewrite <- !app_assoc; simpl app; reflexivity|].
      left. split; [|reflexivity].
      simpl. reflexivity.
Qed.

Lemma image_errors_name_their_stage_witness :
  exists rest st',
    Image.convert_to_qcow_if_necessary "/fake/img/path"
      (Doubles.tool Doubles.success (Doubles.json_format "raw") Doubles.failure Doubles.success)
    = (Throw (runtime_error ("Failed to convert image format: qemu-img failed (" ++ rest)), st').
Proof.
  destruct (Image.convert_to_qcow_if_necessary "/fake/img/path"
              (Doubles.tool Doubles.success (Doubles.json_format "raw")
                 Doubles.failure Doubles.success)) as [r st'] eqn:Erun.
  pose proof (proj2 (image_errors_name_their_stage Doubles.FakeTool Doubles.fake_tool
                       "/fake/img/path" _) r st' Erun) as Hstage.
  assert (Hr : exists msg, r = Throw (runtime_error msg) /\ Str.startsWith msg "F" = true).
  { vm_compute in Erun. injection Erun as <- _. eexists. split; reflexivity. }
  destruct Hr as (msg & -> & Hf).
  destruct Hstage as (events & rest & _ & [[Hinfo _]|[Hconvert _]]).
  - injection Hinfo as ->. discriminate Hf.
  - exists rest, st'. rewrite Hconvert. reflexivity.
Defined.

(** X20.  [check_for_kvm_support] returns exactly when the helper started
    and its exit code is not 1: a helper that crashed, or that exited with
    any other code, counts as support.  A helper that did not start is
    reported without its exit code being asked for; the output is read only
    for exit code 1, and is then the text of the error, trimmed. *)
Theorem check_for_kvm_support_outcomes :
  forall (W : Type) (HW : Host.World W) (st : St W Host.Event),
    let started := Host.start_and_wait Host.check_kvm_support_path (world st) in
    let e := fst (Host.process_error started) in
    let code := fst (Host.exitCode (snd (Host.process_error started))) in
    let output := fst (Host.readAll (snd (Host.exitCode (snd (Host.process_error started))))) in
    exists r st',
      Host.check_for_kvm_support st = (r, st')
      /\ (r = Ok tt <-> e <> Host.FailedToStart /\ code <> 1)
      /\ (e = Host.FailedToStart ->
          r = Throw Host.helper_missing
          /\ trace st' = (trace st ++ [Host.Start Host.check_kvm_support_path;
                                       Host.Error Host.FailedToStart])%list)
      /\ (e <> Host.FailedToStart -> code = 1 ->
          r = Throw (runtime_error (Str.trimmed output))
          /\ trace st' = (trace st ++ [Host.Start Host.check_kvm_support_path; Host.Error e;
                                       Host.ExitCode 1; Host.ReadAll output])%list)
      /\ (r = Ok tt ->
          trace st' = (trace st ++ [Host.Start Host.check_kvm_support_path; Host.Error e;
                                    Host.ExitCode code])%list).
Proof.
  intros W HW st started e code output. subst started e code output.
  unfold Host.check_for_kvm_support, bind, ask, tell, ret, throw. cbn [world trace].
  destruct (Host.process_error _) as [e w1]. cbn [fst snd world trace].
  assert (Hstart : Host.failed_to_start e = true <-> e = Host.FailedToStart)
    by (destruct e; split; intros E; first [reflexivity | discriminate E]).
  destruct (Host.failed_to_start e) eqn:Efailed; cbv beta iota; cbn [world trace].
  - assert (He : e = Host.FailedToStart) by (apply Hstart; reflexivity). subst e.
    eexists _, _. split; [reflexivity|]. cbn [trace].
    split; [split; [discriminate|intros [Hne _]; contradiction]|].
    split; [intros _; split; [reflexivity|rewrite <- !app_assoc; reflexivity]|].
    split; [intros Hne; contradiction|discriminate].
  - assert (He : e <> Host.FailedToStart)
      by (intros E; apply Hstart in E; discriminate E).
    destruct (Host.exitCode w1) as [code w2]. cbn [fst snd world trace].
    destruct (Z.eqb_spec code 1) as [->|Hcode]; cbv beta iota; cbn [world trace].
    + destruct (Host.readAll w2) as [output w3]. cbn [fst snd world trace].
      eexists _, _. split; [reflexivity|]. cbn [trace].
      split; [split; [discriminate|intros [_ Hne]; contradiction]|].
      split; [intros E; contradiction|].
      split; [intros _ _; split; [reflexivity|rewrite <- !app_assoc; reflexivity]|].
      discriminate.
    + eexists _, _. split; [reflexivity|]. cbn [trace].
      split; [split; [intros _; split; assumption|reflexivity]|].
      split; [intros E; contradiction|].
      split; [intros _ Hone; contradiction|].
      intros _. rewrite <- !app_assoc. reflexivity.
Qed.

Lemma check_for_kvm_support_outcomes_witness :
  fst (Host.check_for_kvm_support (mkSt (Doubles.mkFakeHelper Host.Crashed 127 "boom") []))
  = Ok tt
  /\ fst (Host.check_for_kvm_support
            (mkSt (Doubles.mkFakeHelper Host.UnknownError 1
                     ("  KVM is not available" ++ Str.nl)) []))
     = Throw (runtime_error "KVM is not available").
Proof.
  split.
  - destruct (check_for_kvm_support_outcomes Doubles.FakeHelper Doubles.fake_helper
                (mkSt (Doubles.mkFakeHelper Host.Crashed 127 "boom") []))
      as (r & st' & Hrun & Hok & _).
    rewrite Hrun. apply Hok. split; [discriminate|vm_compute; discriminate].
  - destruct (check_for_kvm_support_outcomes Doubles.FakeHelper Doubles.fake_helper
                (mkSt (Doubles.mkFakeHelper Host.UnknownError 1
                         ("  KVM is not available" ++ Str.nl)) []))
      as (r & st' & Hrun & _ & _ & Hone & _).
    rewrite Hrun. destruct Hone as [-> _]; [discriminate|reflexivity|reflexivity].
Defined.

(** X21.  [cpu_arch] answers the empty string exactly for the architectures
    that are not in its table, and on those that are in it, it never gives
    two of them the same name. *)
Theorem cpu_arch_table :
  forall host other : string,
    (Host.cpu_arch host = ""
     <-> ~ In host ["x86_64"; "arm"; "arm64"; "i386"; "power"; "power64"; "s390x"])
    /\ (Host.cpu_arch host <> "" -> Host.cpu_arch host = Host.cpu_arch other -> host = other).
Proof.
  intros host other. unfold Host.cpu_arch, Host.cpu_to_arch. cbn [Host.value].
  split.
  - repeat match goal with
           | |- context [String.eqb ?k host] => destruct (String.eqb_spec k host) as [<-|?]
           end;
      try (split; [discriminate|intros Hnot; exfalso; apply Hnot; simpl; tauto]).
    split; [intros _ Hin; simpl in Hin; intuition congruence|reflexivity].
  - repeat match goal with
           | |- context [String.eqb ?k host] => destruct (String.eqb_spec k host) as [<-|?]
           end;
      repeat match goal with
             | |- context [String.eqb ?k other] => destruct (String.eqb_spec k other) as [<-|?]
             end;
      intros Hne Heq; try reflexivity; try discriminate Heq; try (exfalso; apply Hne; reflexivity);
      try (exfalso; apply Hne; exact Heq).
Qed.

Lemma cpu_arch_table_witness :
  Host.cpu_arch "arm64" = "aarch64" /\ Host.cpu_arch "riscv64" = ""
  /\ (Host.cpu_arch "arm64" = Host.cpu_arch "power64" -> "arm64" = "power64").
Proof.
  split; [reflexivity|]. split; [reflexivity|].
  apply (cpu_arch_table "arm64" "power64"). discriminate.
Defined.
